(** * Blog-to-podcast converter: the audio agent

    A shallow embedding of [blog_to_podcast/agents/audio_generator.py]:
    the loudness helpers ([_segment_to_float_array], [_normalize_lufs],
    [_standardize_segment]) and the methods of [AudioGeneratorAgent]
    ([_synthesize], [_load_music], [_post_mix], [_run]).

    The agent sits on top of pydub, audioop, numpy, pyloudnorm, base64,
    requests and the Murf SDK.  The pydub methods the agent calls are
    written out below after pydub's own code, together with audioop's
    [mul] and [max] and the numpy steps of the float view; the resampler
    and the width and channel converters, the logarithm and the power, the
    codecs, the loudness meter and base64 are fields of the class
    [AudioLib], and the service, the network and the disk are the record
    [Env].  Python floats are IEEE binary64 and numpy's [float32] is IEEE
    binary32, both through the standard library's [SpecFloat]. *)

From Stdlib Require Import ZArith QArith List String Ascii Bool Lia.
From Stdlib Require Import Strings.Byte.
From Stdlib Require Import Floats.SpecFloat.
From stdpp Require Import base option gmap strings.
Import ListNotations.

Local Open Scope Z_scope.

(** ** IEEE floats *)

Module F64.
Definition prec : Z := 53.
Definition emax : Z := 1024.
Definition of_Z (z : Z) : spec_float := binary_normalize prec emax z 0 false.
Definition add := SFadd prec emax.
Definition sub := SFsub prec emax.
Definition mul := SFmul prec emax.
Definition div := SFdiv prec emax.
Definition opp := SFopp.
Definition ltb := SFltb.
Definition eqb := SFeqb.
Definition neg_infinity : spec_float := S754_infinity true.

(** C's [floor] followed by the cast to [int]; nothing for NaN and the
    infinities, where the cast is undefined. *)
Definition floor (x : spec_float) : option Z :=
  match x with
  | S754_zero _ => Some 0
  | S754_finite s m e =>
      let z := if s then Z.neg m else Z.pos m in
      Some (if 0 <=? e then z * 2 ^ e else z / 2 ^ (- e))
  | _ => None
  end.
End F64.

Module F32.
Definition prec : Z := 24.
Definition emax : Z := 128.
Definition of_Z (z : Z) : spec_float := binary_normalize prec emax z 0 false.
Definition add := SFadd prec emax.
Definition div := SFdiv prec emax.
Definition ltb := SFltb.
Definition is_zero (x : spec_float) : bool :=
  match x with S754_zero _ => true | _ => false end.
End F32.

(** A float that is neither zero nor NaN. *)
Definition regular (x : spec_float) : Prop :=
  match x with
  | S754_finite _ _ _ | S754_infinity _ => True
  | _ => False
  end.

Abbreviation f64 := spec_float (only parsing).
Abbreviation f32 := spec_float (only parsing).

(** ** Exceptions

    The agent raises plain [ValueError], [RuntimeError] and
    [FileNotFoundError]; the constructors name each raise site after the
    error it stands for. *)

Inductive Exc : Type :=
  | EmptyInputError
      (* ValueError: podcast_script is required to create audio. *)
  | PayloadDecodeError
      (* ValueError: Failed to decode base64 audio from Murf response *)
  | DownloadError (url_key : string)
      (* ValueError: Failed to download Murf audio from URL (key) *)
  | NoAudioPayloadError
      (* ValueError: Murf returned no audio payload (checked several fields). *)
  | DecodeError
      (* RuntimeError: Failed to parse audio bytes into AudioSegment *)
  | MissingAssetError (path : string)
      (* FileNotFoundError: Required audio asset missing: path *)
  | LibraryError (what : string).
      (* anything a library call raises on its own *)

Inductive result (A : Type) : Type :=
  | Ok (a : A)
  | Raise (e : Exc).
Arguments Ok {A} a.
Arguments Raise {A} e.

Definition rbind {A B} (r : result A) (f : A -> result B) : result B :=
  match r with
  | Ok a => f a
  | Raise e => Raise e
  end.

Notation "'let!' x ':=' c 'in' k" := (rbind c (fun x => k))
  (at level 10, x pattern, c at level 100, k at level 200).

(** ** pydub's [AudioSegment]

    [samples] is the segment's [_data] read as [get_array_of_samples]
    reads it: signed integers of [sample_width] bytes, channels
    interleaved.  [frame_width] is always [channels * sample_width] in
    pydub and is not stored. *)

Record AudioSegment : Type := mkSegment {
  samples : list Z;
  sample_width : Z;
  frame_rate : Z;
  channels : Z;
}.

(** Smallest and largest sample of a width, audioop's [minvals]/[maxvals]. *)
Definition minval (w : Z) : Z := - 2 ^ (8 * w - 1).
Definition maxval (w : Z) : Z := 2 ^ (8 * w - 1) - 1.

Definition in_range (w x : Z) : Prop := minval w <= x <= maxval w.

(** What storing an [int] into a [w]-byte slot keeps of it. *)
Definition wrap_sample (w x : Z) : Z :=
  (x - minval w) mod 2 ^ (8 * w) + minval w.

(** The invariant every live [AudioSegment] satisfies: whole frames of
    samples that fit their width. *)
Record well_formed (seg : AudioSegment) : Prop := {
  wf_width : In (sample_width seg) [1; 2; 4];
  wf_channels : 1 <= channels seg;
  wf_frames : Z.of_nat (length (samples seg)) mod channels seg = 0;
  wf_range : Forall (in_range (sample_width seg)) (samples seg);
}.

(** ** Python values found in a synthesis response *)

Inductive PyVal : Type :=
  | PyNone
  | PyBool (b : bool)
  | PyInt (z : Z)
  | PyStr (s : string)
  | PyBytes (b : list byte).

(** Python truth value, as [if encoded_val:] and [or] test it. *)
Definition truthy (v : PyVal) : bool :=
  match v with
  | PyNone => false
  | PyBool b => b
  | PyInt z => negb (z =? 0)
  | PyStr s => negb (String.eqb s "")
  | PyBytes b => match b with [] => false | _ => true end
  end.

(** [a or b] *)
Definition py_or (a b : PyVal) : PyVal := if truthy a then a else b.

(** ** Library routines the agent reaches through pydub and friends *)

Class AudioLib : Type := {
  (* math.log and the float ** operator (None: OverflowError) *)
  math_log : f64 -> f64;
  float_pow : f64 -> f64 -> option f64;
  (* (int) of a NaN double, undefined in C *)
  cast_nan : Z;
  (* audioop converters *)
  audioop_ratecv : list Z -> Z -> Z -> Z -> Z -> result (list Z);
  audioop_lin2lin : list Z -> Z -> Z -> result (list Z);
  audioop_tostereo : list Z -> Z -> result (list Z);
  audioop_tomono : list Z -> Z -> result (list Z);
  (* pydub's pure-Python channel folds for more than two channels *)
  fold_to_mono : AudioSegment -> result (list Z);
  from_mono_audiosegments : AudioSegment -> Z -> result AudioSegment;
  (* pydub fades and the decoder behind AudioSegment.from_file(BytesIO) *)
  seg_fade_in : AudioSegment -> Z -> result AudioSegment;
  seg_fade_out : AudioSegment -> Z -> result AudioSegment;
  from_file_bytes : list byte -> string -> result AudioSegment;
  (* pyloudnorm: Meter(rate).integrated_loudness(array) *)
  integrated_loudness : Z -> list f32 -> result f64;
  (* base64.b64decode (None: it raises) *)
  b64decode : PyVal -> option (list byte);
}.

Section Pydub.
Context {L : AudioLib}.

(** [_spawn]: same metadata unless overridden; the constructor widens
    24-bit data to 32 bits (one low padding byte per sample). *)
Definition _spawn (data : list Z) (w r c : Z) : AudioSegment :=
  if w =? 3
  then mkSegment
         (map (fun x => x * 256 + (if x <? 0 then 255 else 0)) data) 4 r c
  else mkSegment data w r c.

Definition set_sample_width (seg : AudioSegment) (w : Z)
  : result AudioSegment :=
  if w =? sample_width seg then Ok seg
  else
    let! data := audioop_lin2lin (samples seg) (sample_width seg) w in
    Ok (_spawn data w (frame_rate seg) (channels seg)).

Definition set_frame_rate (seg : AudioSegment) (r : Z)
  : result AudioSegment :=
  if r =? frame_rate seg then Ok seg
  else
    let! converted := match samples seg with
      | [] => Ok []
      | _ => audioop_ratecv (samples seg) (sample_width seg)
               (channels seg) (frame_rate seg) r
      end in
    Ok (_spawn converted (sample_width seg) r (channels seg)).

Definition set_channels (seg : AudioSegment) (c : Z)
  : result AudioSegment :=
  if c =? channels seg then Ok seg
  else if (c =? 2) && (channels seg =? 1) then
    let! converted := audioop_tostereo (samples seg) (sample_width seg) in
    Ok (_spawn converted (sample_width seg) (frame_rate seg) c)
  else if (c =? 1) && (channels seg =? 2) then
    let! converted := audioop_tomono (samples seg) (sample_width seg) in
    Ok (_spawn converted (sample_width seg) (frame_rate seg) c)
  else if c =? 1 then
    let! converted := fold_to_mono seg in
    Ok (_spawn converted (sample_width seg) (frame_rate seg) c)
  else if channels seg =? 1 then
    from_mono_audiosegments seg c
  else
    Raise (LibraryError "set_channels only supports mono-to-multi and multi-to-mono").

(** [_sync] brings two segments to the larger of each parameter. *)
Definition _sync (a b : AudioSegment)
  : result (AudioSegment * AudioSegment) :=
  let c := Z.max (channels a) (channels b) in
  let r := Z.max (frame_rate a) (frame_rate b) in
  let w := Z.max (sample_width a) (sample_width b) in
  let conv seg :=
    let! s1 := set_channels seg c in
    let! s2 := set_frame_rate s1 r in
    set_sample_width s2 w in
  let! a' := conv a in
  let! b' := conv b in
  Ok (a', b').

(** [seg1 + seg2] is [seg1.append(seg2, crossfade=0)]. *)
Definition seg_add (a b : AudioSegment) : result AudioSegment :=
  let! (a', b') := _sync a b in
  Ok (_spawn (samples a' ++ samples b')
        (sample_width a') (frame_rate a') (channels a')).

Definition frame_count (seg : AudioSegment) : Z :=
  Z.of_nat (length (samples seg)) / channels seg.

(** audioop.max: the largest absolute sample value. *)
Definition seg_max (seg : AudioSegment) : Z :=
  fold_right (fun x m => Z.max (Z.abs x) m) 0 (samples seg).

Definition max_possible_amplitude (seg : AudioSegment) : f64 :=
  F64.div (F64.of_Z (2 ^ (sample_width seg * 8))) (F64.of_Z 2).

Definition ratio_to_db (ratio : f64) : f64 :=
  if F64.eqb ratio (F64.of_Z 0) then F64.neg_infinity
  else F64.mul (F64.of_Z 20)
         (F64.div (math_log ratio) (math_log (F64.of_Z 10))).

Definition max_dBFS (seg : AudioSegment) : f64 :=
  ratio_to_db
    (F64.div (F64.of_Z (seg_max seg)) (max_possible_amplitude seg)).

Definition db_to_float (db : f64) : result f64 :=
  match float_pow (F64.of_Z 10) (F64.div db (F64.of_Z 20)) with
  | Some f => Ok f
  | None => Raise (LibraryError "OverflowError")
  end.

(** audioop's [fbound], then the store into a [w]-byte sample. *)
Definition fbound (val lo hi : f64) : Z :=
  let val :=
    if F64.ltb hi val then hi
    else if F64.ltb val (F64.add lo (F64.of_Z 1)) then lo
    else val in
  match F64.floor val with
  | Some z => z
  | None => cast_nan
  end.

Definition mul_sample (w : Z) (factor : f64) (x : Z) : Z :=
  wrap_sample w
    (fbound (F64.mul (F64.of_Z x) factor)
       (F64.of_Z (minval w)) (F64.of_Z (maxval w))).

Definition audioop_mul (data : list Z) (w : Z) (factor : f64)
  : result (list Z) :=
  if (1 <=? w) && (w <=? 4) then Ok (map (mul_sample w factor) data)
  else Raise (LibraryError "audioop.error: Size should be 1, 2, 3 or 4").

Definition apply_gain (seg : AudioSegment) (volume_change : f64)
  : result AudioSegment :=
  let! factor := db_to_float volume_change in
  let! data := audioop_mul (samples seg) (sample_width seg) factor in
  Ok (_spawn data (sample_width seg) (frame_rate seg) (channels seg)).

(** [get_array_of_samples] knows the array codes of 8, 16 and 32 bits. *)
Definition get_array_of_samples (seg : AudioSegment) : result (list Z) :=
  if (sample_width seg =? 1) || (sample_width seg =? 2)
     || (sample_width seg =? 4)
  then Ok (samples seg)
  else Raise (LibraryError "KeyError: array type").

End Pydub.

(** ** numpy on float32 arrays *)

Section Numpy.

(** [np.array(samples).astype(np.float32)] *)
Definition astype_float32 (xs : list Z) : list f32 := map F32.of_Z xs.

Fixpoint chunks {A} (fuel c : nat) (l : list A) : list (list A) :=
  match fuel with
  | O => []
  | S fuel' =>
      match l with
      | [] => []
      | _ => firstn c l :: chunks fuel' c (skipn c l)
      end
  end.

(** [array.reshape((-1, c))]: rows of [c] entries, a [ValueError] when the
    length is no multiple of [c]. *)
Definition reshape_rows (c : Z) (arr : list f32) : result (list (list f32)) :=
  if Z.of_nat (length arr) mod c =? 0
  then Ok (chunks (length arr) (Z.to_nat c) arr)
  else Raise (LibraryError "ValueError: cannot reshape array").

(** [.mean(axis=1)] of one row: the float32 sum of its entries, added
    left to right as numpy does for the short rows of a frame, over their
    number.  (Dividing in float64 and rounding to float32, as newer numpy
    does here, gives the same float32 quotient.) *)
Definition row_mean (row : list f32) : f32 :=
  match row with
  | [] => S754_nan
  | x :: rest =>
      F32.div (fold_left F32.add rest x) (F32.of_Z (Z.of_nat (length row)))
  end.

(** [np.any]: some entry is not zero (a NaN counts as non-zero). *)
Definition np_any (arr : list f32) : bool :=
  existsb (fun x => negb (F32.is_zero x)) arr.

End Numpy.

(** ** The module-level helpers of [audio_generator.py] *)

Section Helpers.
Context {L : AudioLib}.

(** [np.iinfo(np.int16).max] *)
Definition max_int16 : Z := 32767.

Definition _segment_to_float_array (segment : AudioSegment)
  : result (list f32) :=
  let! raw := get_array_of_samples segment in
  let array := astype_float32 raw in
  let! array :=
    if 1 <? channels segment
    then let! rows := reshape_rows (channels segment) array in
         Ok (map row_mean rows)
    else Ok array in
  if F64.eqb (F64.of_Z max_int16) (F64.of_Z 0) then Ok array
  else Ok (map (fun x => F32.div x (F32.of_Z max_int16)) array).

Definition _normalize_lufs (segment : AudioSegment) (target_lufs : f64)
  : result AudioSegment :=
  let! array := _segment_to_float_array segment in
  if negb (np_any array) then Ok segment
  else
    let! loudness := integrated_loudness (frame_rate segment) array in
    let gain := F64.sub target_lufs loudness in
    apply_gain segment gain.

Definition _standardize_segment (segment : AudioSegment)
  : result AudioSegment :=
  let! s1 := set_frame_rate segment 44100 in
  let! s2 := set_sample_width s1 2 in
  set_channels s2 2.

End Helpers.

(** ** The agent's configuration (the dataclass fields) *)

Record AudioGeneratorAgent : Type := {
  output_path : string;
  intro_path : string;
  outro_path : string;
  target_lufs : f64;
  speech_delta_db : f64;
  music_delta_db : f64;
  voice_id : string;
  murf_model : string;
  http_timeout : Z;
}.

Definition default_agent : AudioGeneratorAgent := {|
  output_path := "blog_to_podcast/output/final_podcast.mp3";
  intro_path := "blog_to_podcast/assets/intro.mp3";
  outro_path := "blog_to_podcast/assets/outro.mp3";
  target_lufs := F64.of_Z (-14);
  speech_delta_db := F64.of_Z 1;
  music_delta_db := F64.of_Z (-1);
  voice_id := "en-US-julia";
  murf_model := "GEN2";
  http_timeout := 30;
|}.

Section PostMix.
Context {L : AudioLib}.

Definition _post_mix (self : AudioGeneratorAgent) (segment : AudioSegment)
  : result AudioSegment :=
  let! segment :=
    if F64.ltb (F64.of_Z 0) (max_dBFS segment)
    then apply_gain segment (F64.opp (max_dBFS segment))
    else Ok segment in
  _normalize_lufs segment (target_lufs self).

(** [intro_music + speech + outro_music], as [_run] writes it. *)
Definition mix_timeline (intro_music speech outro_music : AudioSegment)
  : result AudioSegment :=
  let! head := seg_add intro_music speech in
  seg_add head outro_music.

End PostMix.

(** ** The synthesis response *)

(** An SDK object: what [to_dict()] gives when the object has one (and
    whether it raises), [vars(obj)] when it has a [__dict__], and
    [getattr(obj, name, None)]. *)
Record PyObject : Type := {
  obj_to_dict : option (result (gmap string PyVal));
  obj_vars : option (gmap string PyVal);
  obj_getattr : string -> PyVal;
}.

Inductive Response : Type :=
  | RespNone
  | RespDict (d : gmap string PyVal)
  | RespBytes (b : list byte)
  | RespObject (o : PyObject).

Definition _resp_to_mapping (obj : Response) : gmap string PyVal :=
  match obj with
  | RespNone => ∅
  | RespDict d => d
  | RespBytes _ => ∅
  | RespObject o =>
      match obj_to_dict o with
      | Some (Ok d) => d
      | _ =>
          match obj_vars o with
          | Some d => filter (fun kv => String.prefix "_" (fst kv) = false) d
          | None => ∅
          end
      end
  end.

(** [resp_map.get(key)] *)
Definition dict_get (m : gmap string PyVal) (key : string) : PyVal :=
  match m !! key with
  | Some v => v
  | None => PyNone
  end.

(** [getattr(response, key, None)]: [None], a dict and a byte string carry
    none of the probed names. *)
Definition getattr_or_none (response : Response) (key : string) : PyVal :=
  match response with
  | RespObject o => obj_getattr o key
  | _ => PyNone
  end.

(** [resp_map.get(key) or getattr(response, key, None)] *)
Definition probe (response : Response) (key : string) : PyVal :=
  py_or (dict_get (_resp_to_mapping response) key)
        (getattr_or_none response key).

Definition encoded_keys : list string :=
  ["encoded_audio"; "encodedAudio"; "encodedAudioBase64"; "encodedAudio64"].

Definition url_keys : list string :=
  ["audio_file"; "audioFile"; "url"; "audio_url"; "signedUrl"].

(** ** The outside world

    Every call that leaves the process is logged as an [Event]; what the
    world answers may depend on everything that happened before. *)

Record TtsRequest : Type := {
  req_text : string;
  req_voice_id : string;
  req_format : string;
  req_sample_rate : Z;
  req_model_version : string;
  req_encode_as_base_64 : bool;
}.

Inductive Event : Type :=
  | EvGenerate (req : TtsRequest)
  | EvHttpGet (url : PyVal) (timeout : Z)
  | EvPathExists (path : string)
  | EvFromFile (path : string)
  | EvExport (path : string) (seg : AudioSegment)
             (format bitrate : string) (parameters : list string)
  | EvSleep (seconds : Z).

Record Env : Type := {
  (* tts_client.text_to_speech.generate *)
  murf_generate : list Event -> TtsRequest -> result Response;
  (* requests.get + raise_for_status + .content (None: either raises) *)
  requests_get : list Event -> PyVal -> Z -> option (list byte);
  path_exists : list Event -> string -> bool;
  (* AudioSegment.from_file(path) *)
  from_file_path : list Event -> string -> result AudioSegment;
  (* AudioSegment.export *)
  export_file : list Event -> string -> AudioSegment -> result unit;
}.

Definition M (A : Type) : Type := list Event -> result A * list Event.

Definition ret {A} (a : A) : M A := fun h => (Ok a, h).
Definition raise {A} (e : Exc) : M A := fun h => (Raise e, h).
Definition lift {A} (r : result A) : M A := fun h => (r, h).
Definition bind {A B} (m : M A) (f : A -> M B) : M B :=
  fun h =>
    match m h with
    | (Ok a, h') => f a h'
    | (Raise e, h') => (Raise e, h')
    end.
Definition call {A} (answer : list Event -> A) (ev : Event) : M A :=
  fun h => (Ok (answer h), h ++ [ev]).

Notation "'let*' x ':=' c 'in' k" := (bind c (fun x => k))
  (at level 10, x pattern, c at level 100, k at level 200).

(** tenacity's [retry(wait=wait_fixed(w), stop=stop_after_attempt(n),
    reraise=True)], with [more = n - 1] attempts after the first. *)
Fixpoint retrying {A} (more : nat) (wait : Z) (body : M A) : M A :=
  fun h =>
    match body h with
    | (Ok a, h') => (Ok a, h')
    | (Raise e, h') =>
        match more with
        | O => (Raise e, h')
        | S more' => retrying more' wait body (h' ++ [EvSleep wait])
        end
    end.

(** ** The methods of [AudioGeneratorAgent] *)

(** The arguments of [tts_client.text_to_speech.generate]. *)
Definition tts_request (self : AudioGeneratorAgent) (script : string)
  : TtsRequest := {|
  req_text := script;
  req_voice_id := voice_id self;
  req_format := "MP3";
  req_sample_rate := 44100;
  req_model_version := murf_model self;
  req_encode_as_base_64 := true;
|}.

Section Agent.
Context {L : AudioLib}.
Variable env : Env.

Fixpoint find_encoded (response : Response) (keys : list string)
  : result (option (list byte)) :=
  match keys with
  | [] => Ok None
  | encoded_key :: rest =>
      let encoded_val := probe response encoded_key in
      if truthy encoded_val then
        match b64decode encoded_val with
        | Some audio_bytes => Ok (Some audio_bytes)
        | None => Raise PayloadDecodeError
        end
      else find_encoded response rest
  end.

Fixpoint find_url (self : AudioGeneratorAgent) (response : Response)
    (keys : list string) : M (option (list byte)) :=
  match keys with
  | [] => ret None
  | url_key :: rest =>
      let url_val := probe response url_key in
      if truthy url_val then
        let* content :=
          call (fun h => requests_get env h url_val (http_timeout self))
               (EvHttpGet url_val (http_timeout self)) in
        match content with
        | Some audio_bytes => ret (Some audio_bytes)
        | None => raise (DownloadError url_key)
        end
      else find_url self response rest
  end.

Definition _synthesize (self : AudioGeneratorAgent) (script : string)
  : M AudioSegment :=
  let req := tts_request self script in
  let* answer := call (fun h => murf_generate env h req) (EvGenerate req) in
  let* response := lift answer in
  let* audio_bytes := lift (find_encoded response encoded_keys) in
  let* audio_bytes :=
    match audio_bytes with
    | None => find_url self response url_keys
    | Some _ => ret audio_bytes
    end in
  let audio_bytes :=
    match audio_bytes, response with
    | None, RespBytes b => Some b
    | _, _ => audio_bytes
    end in
  match audio_bytes with
  | None | Some [] => raise NoAudioPayloadError
  | Some audio_bytes =>
      match from_file_bytes audio_bytes "mp3" with
      | Ok speech_segment => lift (_standardize_segment speech_segment)
      | Raise _ => raise DecodeError
      end
  end.

Definition _load_music (self : AudioGeneratorAgent) (path : string)
    (fade_in fade_out : Z) : M AudioSegment :=
  let* found := call (fun h => path_exists env h path) (EvPathExists path) in
  if negb found then raise (MissingAssetError path)
  else
    let* loaded := call (fun h => from_file_path env h path)
                        (EvFromFile path) in
    let* segment := lift loaded in
    let* segment :=
      if negb (fade_in =? 0) && (0 <? fade_in)
      then lift (seg_fade_in segment fade_in) else ret segment in
    let* segment :=
      if negb (fade_out =? 0) && (0 <? fade_out)
      then lift (seg_fade_out segment fade_out) else ret segment in
    lift (_standardize_segment segment).

(** The body of [_run], one attempt. *)
Definition _run_body (self : AudioGeneratorAgent)
    (inputs : gmap string string) : M (gmap string string) :=
  match inputs !! "podcast_script" with
  | None => raise EmptyInputError
  | Some script =>
      if String.eqb script "" then raise EmptyInputError
      else
        let* synthesized := _synthesize self script in
        let* speech :=
          lift (_normalize_lufs synthesized
                  (F64.add (target_lufs self) (speech_delta_db self))) in
        let* intro := _load_music self (intro_path self) 2000 0 in
        let* intro_music :=
          lift (_normalize_lufs intro
                  (F64.add (target_lufs self) (music_delta_db self))) in
        let* outro := _load_music self (outro_path self) 0 1500 in
        let* outro_music :=
          lift (_normalize_lufs outro
                  (F64.add (target_lufs self) (music_delta_db self))) in
        let* composite :=
          lift (mix_timeline intro_music speech outro_music) in
        let* final_audio := lift (_post_mix self composite) in
        let* exported :=
          call (fun h => export_file env h (output_path self) final_audio)
               (EvExport (output_path self) final_audio "mp3" "320k"
                         ["-ar"; "44100"]) in
        let* _ := lift exported in
        ret ({[ "final_audio_path" := output_path self ]}
               : gmap string string)
  end.

(** [_run] under its decorator
    [@retry(wait=wait_fixed(2), stop=stop_after_attempt(2), reraise=True)]. *)
Definition _run (self : AudioGeneratorAgent) (inputs : gmap string string)
  : M (gmap string string) :=
  retrying 1 2 (_run_body self inputs).

End Agent.

(** ** What the specification calls things *)

(** A standardized clip: 44100 Hz, 2 channels, 2 bytes per sample. *)
Definition is_standard (seg : AudioSegment) : Prop :=
  frame_rate seg = 44100 /\ sample_width seg = 2 /\ channels seg = 2.

(** A silent clip: every sample is zero. *)
Definition all_zero (seg : AudioSegment) : Prop :=
  Forall (fun x => x = 0) (samples seg).


(** Whole frames: the sample count is a multiple of the channel count. *)
Definition whole_frames (seg : AudioSegment) : Prop :=
  Z.of_nat (length (samples seg)) mod channels seg = 0.

(** The exact duration in seconds, frames over frames per second. *)
Definition duration_seconds (seg : AudioSegment) : Q :=
  (inject_Z (frame_count seg) / inject_Z (frame_rate seg))%Q.

(** The mono float view before scaling: the samples as float32, folded
    to one channel by averaging each frame. *)
Definition mono_float_samples (seg : AudioSegment) : result (list f32) :=
  let! raw := get_array_of_samples seg in
  if 1 <? channels seg
  then let! rows := reshape_rows (channels seg) (astype_float32 raw) in
       Ok (map row_mean rows)
  else Ok (astype_float32 raw).

(** [to_float_samples] in the specification's words: the mono fold,
    divided by the largest integer amplitude of the clip's own bit depth. *)
Definition to_float_samples_spec (seg : AudioSegment) : result (list f32) :=
  let! mono := mono_float_samples seg in
  Ok (map (fun x => F32.div x (F32.of_Z (maxval (sample_width seg)))) mono).

(** The events a computation adds to the log. *)
Definition is_http_get (ev : Event) : Prop :=
  match ev with EvHttpGet _ _ => True | _ => False end.
Definition is_export (ev : Event) : Prop :=
  match ev with EvExport _ _ _ _ _ => True | _ => False end.

(** What [_synthesize] makes of a payload: [None] is an inline field that
    failed to decode, [Some b] the bytes it obtained. *)
Definition use_payload `{AudioLib} (decoded : option (list byte))
  : result AudioSegment :=
  match decoded with
  | None => Raise PayloadDecodeError
  | Some [] => Raise NoAudioPayloadError
  | Some audio_bytes =>
      match from_file_bytes audio_bytes "mp3" with
      | Ok speech_segment => _standardize_segment speech_segment
      | Raise _ => Raise DecodeError
      end
  end.

(** ** What the peak level takes from the runtime's logarithm and power *)




(** [2 ** 52], the mantissa of a binary64 power of two. *)
Abbreviation two52 := 4503599627370496%positive.

(** ** A concrete library and world to run the agent on

    Exact where the routine is short (base64 after CPython's lenient
    decoder, [lin2lin], [tostereo], [tomono]); schematic elsewhere: the
    resampler keeps the data, fades keep the segment, the decoder reads its
    input as unsigned 8-bit mono PCM at 44100 Hz, the meter reports -23,
    and the logarithm and power work on powers of two. *)

Module Sample.

Definition b64_value (c : N) : option N :=
  (if (65 <=? c) && (c <=? 90) then Some (c - 65)
   else if (97 <=? c) && (c <=? 122) then Some (c - 71)
   else if (48 <=? c) && (c <=? 57) then Some (c + 4)
   else if c =? 43 then Some 62
   else if c =? 47 then Some 63
   else None)%N.

Fixpoint a2b_base64 (input : list N) (quad_pos : nat) (leftchar : N)
    (pads : nat) (out : list N) : option (list N) :=
  match input with
  | [] => if Nat.eqb quad_pos 0 then Some (rev out) else None
  | ch :: rest =>
      if (ch =? 61)%N then
        if Nat.leb 2 quad_pos && Nat.leb 4 (quad_pos + S pads)
        then Some (rev out)
        else a2b_base64 rest quad_pos leftchar
               (if Nat.leb 2 quad_pos then S pads else pads) out
      else
        match b64_value ch with
        | None => a2b_base64 rest quad_pos leftchar pads out
        | Some v =>
            match quad_pos with
            | 0%nat => a2b_base64 rest 1 v 0 out
            | 1%nat =>
                a2b_base64 rest 2 (N.land v 15) 0
                  (N.lor (N.shiftl leftchar 2) (N.shiftr v 4) :: out)
            | 2%nat =>
                a2b_base64 rest 3 (N.land v 3) 0
                  (N.lor (N.shiftl leftchar 4) (N.shiftr v 2) :: out)
            | _ =>
                a2b_base64 rest 0 0 0
                  (N.lor (N.shiftl leftchar 6) v :: out)
            end
        end
  end.

Definition byte_of_code (n : N) : byte :=
  match Byte.of_N n with Some b => b | None => x00 end.

Definition b64decode_lenient (v : PyVal) : option (list byte) :=
  let run codes :=
    match a2b_base64 codes 0 0 0 [] with
    | Some out => Some (map byte_of_code out)
    | None => None
    end in
  match v with
  | PyStr s =>
      let codes := map N_of_ascii (list_ascii_of_string s) in
      if forallb (fun c => (c <? 128)%N) codes then run codes else None
  | PyBytes b => run (map Byte.to_N b)
  | _ => None
  end.

Definition lin2lin (data : list Z) (w w' : Z) : result (list Z) :=
  Ok (map (fun x => x * 2 ^ (8 * (4 - w)) / 2 ^ (8 * (4 - w'))) data).

Definition tostereo (data : list Z) (w : Z) : result (list Z) :=
  Ok (flat_map (fun x => [x; x]) data).

Fixpoint tomono (data : list Z) : list Z :=
  match data with
  | l :: r :: rest => (l + r) / 2 :: tomono rest
  | _ => []
  end.

Definition log2_floor (x : f64) : f64 :=
  match x with
  | S754_zero _ => F64.neg_infinity
  | S754_finite false m e => F64.of_Z (Z.pos (digits2_pos m) - 1 + e)
  | S754_infinity false => x
  | _ => S754_nan
  end.

Definition pow2 (b e : f64) : option f64 :=
  match F64.floor (F64.mul e (log2_floor b)) with
  | Some z => Some (SFldexp F64.prec F64.emax (F64.of_Z 1) z)
  | None => None
  end.

Definition pcm_u8 (b : list byte) (format : string) : result AudioSegment :=
  match b with
  | [] => Raise (LibraryError "CouldntDecodeError")
  | _ => Ok (mkSegment (map (fun c => Z.of_N (Byte.to_N c) - 128) b)
               1 44100 1)
  end.

#[export] Instance lib : AudioLib := {|
  math_log := log2_floor;
  float_pow := pow2;
  cast_nan := 0;
  audioop_ratecv := fun data _ _ _ _ => Ok data;
  audioop_lin2lin := lin2lin;
  audioop_tostereo := tostereo;
  audioop_tomono := fun data _ => Ok (tomono data);
  fold_to_mono := fun _ => Raise (LibraryError "unsupported");
  from_mono_audiosegments := fun _ _ => Raise (LibraryError "unsupported");
  seg_fade_in := fun seg _ => Ok seg;
  seg_fade_out := fun seg _ => Ok seg;
  from_file_bytes := pcm_u8;
  integrated_loudness := fun _ _ => Ok (F64.of_Z (-23));
  b64decode := b64decode_lenient;
|}.

(** A world whose service answers [response], whose downloads fail, and
    whose disk holds the listed assets. *)
Definition world (response : Response)
    (assets : list (string * AudioSegment)) : Env := {|
  murf_generate := fun _ _ => Ok response;
  requests_get := fun _ _ _ => None;
  path_exists := fun _ p =>
    existsb (fun a => String.eqb (fst a) p) assets;
  from_file_path := fun _ p =>
    match find (fun a => String.eqb (fst a) p) assets with
    | Some a => Ok (snd a)
    | None => Raise (LibraryError "CouldntDecodeError")
    end;
  export_file := fun _ _ _ => Ok tt;
|}.

(** Clips: two silent frames of music, a short jingle, two frames of
    speech, one 32-bit sample at full scale, and one standardized frame at
    the most negative 16-bit value. *)
Definition music : AudioSegment := mkSegment [0; 0; 0; 0] 2 44100 2.
Definition jingle : AudioSegment := mkSegment [0; 0] 2 44100 2.
Definition speech : AudioSegment := mkSegment [100; -100; 5; 7] 2 44100 2.
Definition loud32 : AudioSegment := mkSegment [2147483647] 4 44100 1.
Definition floor16 : AudioSegment := mkSegment [-32768; -32768] 2 44100 2.

Definition hello_inputs : gmap string string :=
  {[ "podcast_script" := "hello" ]}.
Definition empty_inputs : gmap string string :=
  {[ "podcast_script" := "" ]}.

(** Responses: an inline field and a URL field; two inline fields of
    which the second does not decode, or decodes to nothing; one inline
    field of each kind alone; an empty inline field and a URL field. *)
Definition inline_and_url : Response :=
  RespDict {[ "encodedAudio" := PyStr "QUJD";
              "url" := PyStr "http://unreachable" ]}.
Definition good_then_bad : Response :=
  RespDict {[ "encoded_audio" := PyStr "QUJD";
              "encodedAudio" := PyStr "A" ]}.
Definition only_bad : Response :=
  RespDict {[ "encodedAudio" := PyStr "A" ]}.
Definition good_then_blank : Response :=
  RespDict {[ "encoded_audio" := PyStr "QUJD";
              "encodedAudio" := PyStr " " ]}.
Definition only_blank : Response :=
  RespDict {[ "encodedAudio" := PyStr " " ]}.
Definition empty_then_url : Response :=
  RespDict {[ "encoded_audio" := PyStr "";
              "audio_file" := PyStr "http://unreachable" ]}.

Definition bad_then_good : Response :=
  RespDict {[ "encoded_audio" := PyStr "A";
              "encodedAudio" := PyStr "QUJD";
              "url" := PyStr "http://unreachable" ]}.

End Sample.

(** ** Counting what a computation did *)

Definition generate_b (ev : Event) : bool :=
  match ev with EvGenerate _ => true | _ => false end.
Definition export_b (ev : Event) : bool :=
  match ev with EvExport _ _ _ _ _ => true | _ => false end.
Definition sleep_b (ev : Event) : bool :=
  match ev with EvSleep _ => true | _ => false end.

Fixpoint count_events (p : Event -> bool) (evs : list Event) : nat :=
  match evs with
  | [] => O
  | ev :: rest => if p ev then S (count_events p rest) else count_events p rest
  end.

(** Events that are neither a request to the service, nor an export, nor
    a pause: downloads and disk reads. *)
Definition quiet (evs : list Event) : Prop :=
  Forall (fun ev => generate_b ev = false /\ export_b ev = false
                    /\ sleep_b ev = false) evs.


(** ** Start-up: the module's ffmpeg configuration and [__post_init__] *)

(** What the process finds when the module is loaded and an agent is
    built: [imageio_ffmpeg.get_ffmpeg_exe()], [shutil.which("ffprobe")],
    [Path(p).exists()] and [os.getenv("MURF_API_KEY")] after
    [load_dotenv()]. *)
Record Startup : Type := {
  ffmpeg_exe : string;
  which_ffprobe : option string;
  file_exists : string -> bool;
  murf_api_key : option string;
}.

Definition nonempty (s : string) : bool := negb (String.eqb s "").

(** [AudioSegment.converter = imageio_ffmpeg.get_ffmpeg_exe()] *)
Definition converter (st : Startup) : string := ffmpeg_exe st.

(** [AudioSegment.ffprobe = shutil.which("ffprobe") or AudioSegment.converter] *)
Definition ffprobe (st : Startup) : string :=
  match which_ffprobe st with
  | Some p => if nonempty p then p else converter st
  | None => converter st
  end.

(** [_ensure_audio_toolchain]: the list [missing]; the method raises
    [RuntimeError] when it is not empty. *)
Definition _ensure_audio_toolchain (st : Startup) : list string :=
  let ffmpeg_path := converter st in
  let ffprobe_path := ffprobe st in
  let missing := [] in
  let missing :=
    if negb (nonempty ffmpeg_path) || negb (file_exists st ffmpeg_path)
    then missing ++ ["ffmpeg"] else missing in
  let missing :=
    if negb (nonempty ffprobe_path)
    then missing ++ ["ffprobe"] else missing in
  missing.

Inductive InitOutcome : Type :=
  | ToolchainMissing
      (* RuntimeError: ffmpeg/ffprobe binaries are required. *)
  | ApiKeyMissing
      (* RuntimeError: MURF_API_KEY not found. *)
  | Ready (api_key : string) (mkdir_parent_of : string).
      (* Murf(api_key=...) built, output_path.parent.mkdir(parents=True) *)

Definition __post_init__ (st : Startup) (self : AudioGeneratorAgent)
  : InitOutcome :=
  match _ensure_audio_toolchain st with
  | _ :: _ => ToolchainMissing
  | [] =>
      match murf_api_key st with
      | Some api_key =>
          if nonempty api_key then Ready api_key (output_path self)
          else ApiKeyMissing
      | None => ApiKeyMissing
      end
  end.

(** * The text agents and the pipeline

    A Python [str] is the list of its code points.  What the text agents
    take from libraries (urlparse, trafilatura's extractor, textwrap,
    [str.lower]) is a field of [TextLib]; the downloads and the Groq
    service are the record [TextWorld], with every call logged. *)

Abbreviation pystr := (list N).

(** A literal of ASCII characters. *)
Definition lit (s : string) : pystr :=
  map N_of_ascii (list_ascii_of_string s).

Definition newline : N := 10.
Definition quote : N := 34.

(** Python's whitespace, the characters [\s] matches and [strip] removes:
    U+0009..000D, U+001C..0020, U+0085, U+00A0, U+1680, U+2000..200A,
    U+2028, U+2029, U+202F, U+205F, U+3000. *)
Definition isspace (c : N) : bool :=
  (((9 <=? c) && (c <=? 13)) || ((28 <=? c) && (c <=? 32))
   || (c =? 133) || (c =? 160) || (c =? 5760)
   || ((8192 <=? c) && (c <=? 8202))
   || (c =? 8232) || (c =? 8233) || (c =? 8239) || (c =? 8287)
   || (c =? 12288))%N.

Fixpoint lstrip (s : pystr) : pystr :=
  match s with
  | [] => []
  | c :: rest => if isspace c then lstrip rest else s
  end.

Fixpoint rstrip (s : pystr) : pystr :=
  match s with
  | [] => []
  | c :: rest =>
      match rstrip rest with
      | [] => if isspace c then [] else [c]
      | kept => c :: kept
      end
  end.

(** [s.strip()] *)
Definition strip (s : pystr) : pystr := rstrip (lstrip s).

(** [re.sub(r"\s+", " ", s)]: every maximal run of whitespace becomes one
    space; [in_run] says the previous character was whitespace. *)
Fixpoint sub_spaces (in_run : bool) (s : pystr) : pystr :=
  match s with
  | [] => []
  | c :: rest =>
      if isspace c
      then if in_run then sub_spaces true rest
           else 32%N :: sub_spaces true rest
      else c :: sub_spaces false rest
  end.

(** Tidy text: every whitespace character is a plain space, U+0020, and
    no two whitespace characters are adjacent. *)
Fixpoint single_spaced (s : pystr) : bool :=
  match s with
  | [] => true
  | c :: rest =>
      (negb (isspace c) || (c =? 32)%N)
      && match rest with
         | d :: _ => negb (isspace c && isspace d)
         | [] => true
         end
      && single_spaced rest
  end.

(** [s[:n]], a negative [n] counting from the end. *)
Definition slice_to (s : pystr) (n : Z) : pystr :=
  if 0 <=? n then firstn (Z.to_nat n) s
  else firstn (length s - Z.to_nat (- n)) s.

(** [sep.join(parts)] *)
Fixpoint join (sep : pystr) (parts : list pystr) : pystr :=
  match parts with
  | [] => []
  | [p] => p
  | p :: rest => p ++ sep ++ join sep rest
  end.

(** [s.split(sep)] for a one-character separator: the pieces between
    occurrences, at least one piece. *)
Fixpoint split_on (sep : N) (s : pystr) : list pystr :=
  match s with
  | [] => [[]]
  | c :: rest =>
      match split_on sep rest with
      | [] => [[]]
      | piece :: pieces =>
          if (c =? sep)%N then [] :: piece :: pieces
          else (c :: piece) :: pieces
      end
  end.

(** [s.startswith(prefix)] *)
Fixpoint startswith (s prefix : pystr) : bool :=
  match prefix, s with
  | [], _ => true
  | p :: prefix', c :: s' => (c =? p)%N && startswith s' prefix'
  | _ :: _, [] => false
  end.

Class TextLib : Type := {
  (* urllib.parse.urlparse: scheme and netloc (None: ValueError) *)
  urlparse : pystr -> option (pystr * pystr);
  (* trafilatura.extract(downloaded, include_comments=False) *)
  trafilatura_extract : pystr -> option pystr;
  (* textwrap.shorten(text, width=w, placeholder="...") *)
  textwrap_shorten : pystr -> Z -> pystr;
  textwrap_dedent : pystr -> pystr;
  str_lower : pystr -> pystr;
}.

Inductive TextExc : Type :=
  | BlogSourceRequired
      (* ValueError: blog_source is required. *)
  | NoContentExtracted
      (* ValueError: No content could be extracted from the provided input. *)
  | CleanTextRequired
      (* ValueError: clean_blog_text is required for script generation. *)
  | NoChoices
      (* ValueError: Groq response did not contain any choices. *)
  | NoContent
      (* ValueError: Groq response choice did not include content. *)
  | EmptyScript
      (* ValueError: Groq returned an empty script. *)
  | HtmlErrorPage
      (* RuntimeError: Groq returned an HTML error page instead of a script. *)
  | RemoteError (what : string).
      (* what a download or the Groq client raises *)

Inductive outcome (A : Type) : Type :=
  | Done (a : A)
  | Failed (e : TextExc).
Arguments Done {A} a.
Arguments Failed {A} e.

(** The arguments of [client.chat.completions.create]. *)
Record GroqRequest : Type := {
  groq_model : string;
  groq_temperature : f64;
  groq_max_tokens : Z;
  groq_system : pystr;
  groq_user : pystr;
}.

Inductive TextEvent : Type :=
  | TvFetchUrl (url : pystr)
  | TvHttpGet (url : pystr) (timeout : Z)
  | TvGroq (req : GroqRequest)
  | TvSleep (seconds : Z).

Record TextWorld : Type := {
  (* trafilatura.fetch_url(url, no_ssl=True): the page, or None *)
  trafilatura_fetch_url : list TextEvent -> pystr -> option pystr;
  (* requests.get + raise_for_status + .text (None: either raises) *)
  requests_get_text : list TextEvent -> pystr -> Z -> option pystr;
  (* chat.completions.create: the contents of the choices, or what it
     raises *)
  groq_create : list TextEvent -> GroqRequest
                -> outcome (list (option pystr));
}.

Definition T (A : Type) : Type :=
  list TextEvent -> outcome A * list TextEvent.

Definition tret {A} (a : A) : T A := fun h => (Done a, h).
Definition tfail {A} (e : TextExc) : T A := fun h => (Failed e, h).
Definition tbind {A B} (m : T A) (f : A -> T B) : T B :=
  fun h =>
    match m h with
    | (Done a, h') => f a h'
    | (Failed e, h') => (Failed e, h')
    end.
Definition tcall {A} (answer : list TextEvent -> A) (ev : TextEvent) : T A :=
  fun h => (Done (answer h), h ++ [ev]).

Notation "'let+' x ':=' c 'in' k" := (tbind c (fun x => k))
  (at level 10, x pattern, c at level 100, k at level 200).

(** tenacity's retry with a fixed wait, [more] attempts after the first. *)
Fixpoint tretrying {A} (more : nat) (wait : Z) (body : T A) : T A :=
  fun h =>
    match body h with
    | (Done a, h') => (Done a, h')
    | (Failed e, h') =>
        match more with
        | O => (Failed e, h')
        | S more' => tretrying more' wait body (h' ++ [TvSleep wait])
        end
    end.

(** ** [agents/blog_cleaner.py] *)

Module BlogCleaner.
Section WithLib.
Context {TL : TextLib}.
Variable world : TextWorld.

Definition _is_url (source : pystr) : bool :=
  match urlparse (strip source) with
  | None => false
  | Some (scheme, netloc) =>
      (bool_decide (scheme = lit "http")
       || bool_decide (scheme = lit "https"))
      && bool_decide (netloc <> [])
  end.

Definition _clean_text (raw_text : pystr) (max_chars : Z) : pystr :=
  let text := sub_spaces false raw_text in
  let text := strip text in
  if max_chars <? Z.of_nat (length text) then slice_to text max_chars
  else text.

Record BlogCleanerAgent : Type := {
  max_chars : Z;
  timeout : Z;
}.

Definition default_agent : BlogCleanerAgent :=
  {| max_chars := 30000; timeout := 15 |}.

Definition _download_url (self : BlogCleanerAgent) (url : pystr) : T pystr :=
  let+ downloaded :=
    tcall (fun h => trafilatura_fetch_url world h url) (TvFetchUrl url) in
  let fallback : T pystr :=
    let+ resp :=
      tcall (fun h => requests_get_text world h url (timeout self))
            (TvHttpGet url (timeout self)) in
    match resp with
    | Some text => tret text
    | None => tfail (RemoteError "requests")
    end in
  match downloaded with
  | Some ((_ :: _) as page) =>
      match trafilatura_extract page with
      | Some ((_ :: _) as extracted) => tret extracted
      | _ => fallback
      end
  | _ => fallback
  end.

(** The body of [_run], one attempt. *)
Definition _run_body (self : BlogCleanerAgent) (inputs : gmap string pystr)
  : T (gmap string pystr) :=
  match inputs !! "blog_source" with
  | None | Some [] => tfail BlogSourceRequired
  | Some source =>
      let+ raw_text :=
        if _is_url source then _download_url self source
        else tret source in
      match raw_text with
      | [] => tfail NoContentExtracted
      | _ =>
          let clean_text := _clean_text raw_text (max_chars self) in
          tret ({[ "clean_blog_text" := clean_text ]} : gmap string pystr)
      end
  end.

(** [_run] under
    [@retry(wait=wait_fixed(1), stop=stop_after_attempt(3), reraise=True)]. *)
Definition _run (self : BlogCleanerAgent) (inputs : gmap string pystr)
  : T (gmap string pystr) :=
  tretrying 2 1 (_run_body self inputs).

End WithLib.
End BlogCleaner.

(** ** [core/groq_client.py] *)

Module Groq.
Section WithWorld.
Variable world : TextWorld.

Record GroqClient : Type := {
  api_key : string;
  model : string;
  max_output_tokens : Z;
  temperature : f64;
}.

(** The constructor's defaults; 0.2 is the double nearest to 2/10. *)
Definition default_client (key : string) : GroqClient := {|
  api_key := key;
  model := "llama-3.3-70b-versatile";
  max_output_tokens := 3000;
  temperature := F64.div (F64.of_Z 2) (F64.of_Z 10);
|}.

(** The arguments [run_groq] passes to the client: the stored
    configuration and the two messages. *)
Definition request (self : GroqClient) (system_prompt user_prompt : pystr)
  : GroqRequest := {|
  groq_model := model self;
  groq_temperature := temperature self;
  groq_max_tokens := max_output_tokens self;
  groq_system := system_prompt;
  groq_user := user_prompt;
|}.

Definition run_groq (self : GroqClient) (system_prompt user_prompt : pystr)
  : T pystr :=
  let req := request self system_prompt user_prompt in
  let+ answer := tcall (fun h => groq_create world h req) (TvGroq req) in
  match answer with
  | Failed e => tfail e
  | Done [] => tfail NoChoices
  | Done (content :: _) =>
      match content with
      | None | Some [] => tfail NoContent
      | Some content => tret (strip content)
      end
  end.

End WithWorld.
End Groq.

(** ** [agents/script_generator.py] *)

Module ScriptGenerator.
Section WithLib.
Context {TL : TextLib}.
Variable world : TextWorld.

Definition SYSTEM_PROMPT : pystr :=
  lit "You are an expert podcast scriptwriter. Convert structured or unstructured blog content into a casual, friendly, engaging podcast script."
  ++ [newline; newline] ++ lit "RULES:"
  ++ [newline] ++ lit "- Use simple spoken English."
  ++ [newline] ++ lit "- No long sentences."
  ++ [newline] ++ lit "- Add conversational transitions."
  ++ [newline] ++ lit "- Avoid robotic tone."
  ++ [newline] ++ lit "- Add a quick hook in the first 10 seconds."
  ++ [newline] ++ lit "- End with a warm closing note.".

Definition _build_prompt (clean_blog_text : pystr) : pystr :=
  lit "Transform the following blog content into a fully produced podcast script. Focus on clarity, narrative flow, and conversational transitions."
  ++ [newline; newline] ++ lit "BLOG CONTENT:" ++ [newline]
  ++ clean_blog_text.

(** [True] when the script starts like an HTML page, in which case the
    method raises [RuntimeError]. *)
Definition looks_like_html (script : pystr) : bool :=
  let snippet := str_lower (firstn 80 (lstrip script)) in
  existsb (startswith snippet)
    [lit "<!doctype"; lit "<html"; lit "<!doctype html"].

(** The loop of [_extract_key_points] over the paragraphs left, with the
    points found so far. *)
Fixpoint key_points_loop (paragraphs : list pystr) (points : list pystr)
  : list pystr :=
  match paragraphs with
  | [] => points
  | paragraph :: rest =>
      let sentence := strip (hd [] (split_on 46 paragraph)) in
      match sentence with
      | [] => key_points_loop rest points
      | _ =>
          let sentence := textwrap_shorten sentence 160 in
          let points :=
            if bool_decide (sentence ∈ points) then points
            else points ++ [sentence] in
          if (length points =? 4)%nat then points
          else key_points_loop rest points
      end
  end.

Definition _extract_key_points (paragraphs : list pystr) : list pystr :=
  key_points_loop (firstn 6 paragraphs) [].

Definition empty_blog_apology : pystr :=
  lit "Hey there, welcome back! It looks like the blog content was empty, so there's nothing to narrate right now.".

Definition _build_fallback_script (clean_blog_text : pystr) : pystr :=
  let trimmed := strip clean_blog_text in
  match trimmed with
  | [] => empty_blog_apology
  | _ =>
      let paragraphs :=
        map strip
          (List.filter (fun p => negb (bool_decide (strip p = [])))
                       (split_on newline trimmed)) in
      let opener := hd [] paragraphs in
      let opener := textwrap_shorten opener 600 in
      let body_text :=
        if (1 <? length paragraphs)%nat then join [32%N] (tl paragraphs)
        else trimmed in
      let body_text := textwrap_shorten body_text 5000 in
      let key_points := _extract_key_points paragraphs in
      let formatted_points :=
        join [newline] (map (fun point => lit "- " ++ point) key_points) in
      let fallback_script :=
        [newline] ++ lit "[Intro]" ++ [newline]
        ++ lit "Hey friends, welcome to the Blog -> Podcast Studio. Today we're unpacking a post titled:"
        ++ [newline; quote] ++ opener ++ [quote; newline; newline]
        ++ lit "[Main Takeaways]" ++ [newline]
        ++ match formatted_points with
           | [] => lit "This article focuses on a single narrative, so let's walk through it together."
           | _ => formatted_points
           end
        ++ [newline; newline] ++ lit "[Deep Dive]" ++ [newline]
        ++ body_text
        ++ [newline; newline] ++ lit "[Outro]" ++ [newline]
        ++ lit "That's a wrap for this quick conversion. Once Groq is reachable again, run the same post for a fully polished script."
        ++ [newline] in
      strip (textwrap_dedent fallback_script)
  end.

(** The body of [_run], one attempt: whatever goes wrong with Groq, or
    with what it returns, ends in the fallback script. *)
Definition _run_body (groq_client : Groq.GroqClient)
    (inputs : gmap string pystr) : T (gmap string pystr) :=
  match inputs !! "clean_blog_text" with
  | None | Some [] => tfail CleanTextRequired
  | Some blog_text =>
      let prompt := _build_prompt blog_text in
      let fallback : gmap string pystr :=
        {[ "podcast_script" := _build_fallback_script blog_text ]} in
      fun h =>
        match Groq.run_groq world groq_client SYSTEM_PROMPT prompt h with
        | (Done ((_ :: _) as script), h') =>
            if looks_like_html script then (Done fallback, h')
            else (Done {[ "podcast_script" := strip script ]}, h')
        | (Done [], h') => (Done fallback, h')
        | (Failed _, h') => (Done fallback, h')
        end
  end.

(** [_run] under
    [@retry(wait=wait_fixed(2), stop=stop_after_attempt(3), reraise=True)]. *)
Definition _run (groq_client : Groq.GroqClient)
    (inputs : gmap string pystr) : T (gmap string pystr) :=
  tretrying 2 2 (_run_body groq_client inputs).

End WithLib.
End ScriptGenerator.

(** ** [core/pipeline.py] *)

Module Pipeline.

Inductive PipelineExc : Type :=
  | SourceRequired
      (* ValueError: A blog URL or raw text source is required. *)
  | KeyError (key : string)
      (* script_result["podcast_script"] *)
  | AgentRaised (e : Exc).
      (* what an agent's runnable raised, passed on unchanged *)

(** An agent's runnable: [runnable.invoke(inputs)] calls its [_run]. *)
Abbreviation runnable := (gmap string string -> M (gmap string string)).

(** [BlogToPodcastPipeline.run(blog_source=...)], with the three agents'
    runnables. *)
Definition run (blog_agent script_agent audio_agent : runnable)
    (blog_source : string)
  : list Event -> (PipelineExc + gmap string string) * list Event :=
  fun h =>
    if String.eqb blog_source "" then (inl SourceRequired, h)
    else
      match blog_agent {[ "blog_source" := blog_source ]} h with
      | (Raise e, h1) => (inl (AgentRaised e), h1)
      | (Ok cleaned, h1) =>
          match script_agent cleaned h1 with
          | (Raise e, h2) => (inl (AgentRaised e), h2)
          | (Ok script_result, h2) =>
              match script_result !! "podcast_script" with
              | None => (inl (KeyError "podcast_script"), h2)
              | Some script_text =>
                  match audio_agent script_result h2 with
                  | (Raise e, h3) => (inl (AgentRaised e), h3)
                  | (Ok audio_result, h3) =>
                      (* the log line reads audio_result["final_audio_path"] *)
                      match audio_result !! "final_audio_path" with
                      | None => (inl (KeyError "final_audio_path"), h3)
                      | Some _ =>
                          (inr (audio_result ∪ (script_result ∪ cleaned)),
                           h3)
                      end
                  end
              end
          end
      end.

End Pipeline.

(** * Example data for the text agents and the pipeline *)

Module TextSample.

(** [s] up to the first [stop], and what follows that character. *)
Fixpoint break_at (stop : N) (s : pystr) : pystr * option pystr :=
  match s with
  | [] => ([], None)
  | c :: rest =>
      if (c =? stop)%N then ([], Some rest)
      else let (before, after) := break_at stop rest in (c :: before, after)
  end.

(** A small [urlparse], for [scheme://netloc/path]. *)
Definition simple_urlparse (s : pystr) : option (pystr * pystr) :=
  match break_at 58 s with
  | (scheme, Some rest) =>
      if startswith rest (lit "//")
      then Some (scheme, fst (break_at 47 (skipn 2 rest)))
      else Some (scheme, [])
  | (_, None) => Some ([], [])
  end.

Definition ascii_lower (s : pystr) : pystr :=
  map (fun c => if ((65 <=? c) && (c <=? 90))%N then (c + 32)%N else c) s.

(** Cuts at the width, for text without runs of whitespace. *)
Definition simple_shorten (s : pystr) (width : Z) : pystr :=
  if Z.of_nat (length s) <=? width then s
  else firstn (Z.to_nat (width - 3)) s ++ lit "...".

#[export] Instance lib : TextLib := {|
  urlparse := simple_urlparse;
  trafilatura_extract :=
    fun page => if startswith page (lit "<") then None else Some page;
  textwrap_shorten := simple_shorten;
  textwrap_dedent := fun s => s;
  str_lower := ascii_lower;
|}.

(** A world in which every download gives [page] (trafilatura) or [body]
    (requests) and Groq always answers [answer]. *)
Definition world (page body : option pystr)
    (answer : outcome (list (option pystr))) : TextWorld := {|
  trafilatura_fetch_url := fun _ _ => page;
  requests_get_text := fun _ _ _ => body;
  groq_create := fun _ _ => answer;
|}.

Definition offline : TextWorld :=
  world None None (Failed (RemoteError "groq.APIConnectionError")).

Definition post_url : pystr := lit "https://example.org/post".
Definition post_text : pystr := lit "Ten tips.  Read them all.".
Definition blank : pystr := [32; 10; 9; 32]%N.
Definition greeting : pystr := lit " Hi, friends. ".

Definition key : string := "gsk".

End TextSample.

Module Studio.

(** Both music assets on disk. *)
Definition assets : list (string * AudioSegment) :=
  [(intro_path default_agent, Sample.jingle);
   (outro_path default_agent, Sample.music)].

(** The intro only. *)
Definition intro_only : list (string * AudioSegment) :=
  [(intro_path default_agent, Sample.jingle)].

Definition raw_mp3 : list byte := [Byte.x41; Byte.x42; Byte.x43].

(** A service that answers with two samples of silence, as raw bytes. *)
Definition silence : Response := RespBytes [Byte.x80; Byte.x80].

(** What the synthesis of [Sample.inline_and_url] gives, standardized. *)
Definition abc_clip : AudioSegment :=
  mkSegment [-16128; -16128; -15872; -15872; -15616; -15616] 2 44100 2.

(** The mix of the jingle, the silent speech and the music. *)
Definition mixdown : AudioSegment :=
  mkSegment [0; 0; 0; 0; 0; 0; 0; 0; 0; 0] 2 44100 2.

(** What a run does with [silence] and both assets on disk. *)
Definition episode_log : list Event :=
  [EvGenerate (tts_request default_agent "hello");
   EvPathExists (intro_path default_agent);
   EvFromFile (intro_path default_agent);
   EvPathExists (outro_path default_agent);
   EvFromFile (outro_path default_agent);
   EvExport (output_path default_agent) mixdown "mp3" "320k"
     ["-ar"; "44100"]].

Definition episode : gmap string string :=
  {[ "final_audio_path" := output_path default_agent ]}
  ∪ ({[ "podcast_script" := "hello" ]} ∪ {[ "clean_blog_text" := "Ten tips." ]}).

(** Stand-ins for the first two agents' runnables. *)
Definition blog_agent : Pipeline.runnable :=
  fun inputs =>
    ret ({[ "clean_blog_text" := default "" (inputs !! "blog_source") ]}
         : gmap string string).

Definition script_agent : Pipeline.runnable :=
  fun _ => ret ({[ "podcast_script" := "hello" ]} : gmap string string).

Definition silent_script_agent : Pipeline.runnable :=
  fun _ => ret (∅ : gmap string string).

End Studio.

(** * Properties *)

Ltac inv_ok :=
  repeat match goal with
         | H : Ok _ = Ok _ |- _ => injection H as H; try subst
         | H : Raise _ = Ok _ |- _ => discriminate H
         | H : (_, _) = (_, _) |- _ => injection H as ? ?; try subst
         end.

(** ** Rounding an integer to a float never gives zero or NaN *)

Section FloatFacts.
Variables prec emax : Z.
Hypothesis Hprec : 0 < prec.

Lemma digits2_log2 (m : positive) :
  Z.pos (digits2_pos m) = Z.log2 (Z.pos m) + 1.
Proof.
  assert (Hs : forall p, digits2_pos p = Pos.size p)
    by (induction p; simpl; congruence).
  destruct m; simpl; rewrite ?Hs; lia.
Qed.

Lemma shr_1_m (mrs : shr_record) :
  0 <= shr_m mrs -> shr_m (shr_1 mrs) = Z.shiftr (shr_m mrs) 1.
Proof.
  destruct mrs as [m r s]. simpl. intros Hm.
  rewrite <- Z.div2_spec.
  destruct m as [|[p|p|]|p]; simpl; try reflexivity; lia.
Qed.

Lemma iter_shr_1_m (n : positive) : forall mrs : shr_record,
  0 <= shr_m mrs ->
  shr_m (SpecFloat.iter_pos shr_1 n mrs) = Z.shiftr (shr_m mrs) (Z.pos n).
Proof.
  induction n as [n IH|n IH|]; intros mrs Hm; simpl.
  - assert (H1 : 0 <= shr_m (shr_1 mrs))
      by (rewrite shr_1_m by assumption; apply Z.shiftr_nonneg; assumption).
    assert (H2 : 0 <= shr_m (SpecFloat.iter_pos shr_1 n (shr_1 mrs)))
      by (rewrite IH by assumption; apply Z.shiftr_nonneg; assumption).
    rewrite IH, IH, shr_1_m by assumption.
    rewrite !Z.shiftr_shiftr by lia. f_equal. lia.
  - assert (H2 : 0 <= shr_m (SpecFloat.iter_pos shr_1 n mrs))
      by (rewrite IH by assumption; apply Z.shiftr_nonneg; assumption).
    rewrite IH, IH by assumption.
    rewrite !Z.shiftr_shiftr by lia. f_equal. lia.
  - apply shr_1_m. assumption.
Qed.

Lemma shr_record_of_loc_m m l : shr_m (shr_record_of_loc m l) = m.
Proof. destruct l as [|[]]; reflexivity. Qed.

(** A right shift to the format's exponent keeps a mantissa positive as
    long as the number lies above the smallest exponent. *)
Lemma shr_fexp_positive m e l :
  1 <= m -> emin prec emax + 1 <= Zdigits2 m + e ->
  let '(mrs, e') := shr_fexp prec emax m e l in
  1 <= shr_m mrs /\ Zdigits2 (shr_m mrs) + e' = Zdigits2 m + e.
Proof.
  intros Hm He. unfold shr_fexp, shr.
  destruct m as [|m|m]; try lia.
  remember (fexp prec emax (Zdigits2 (Z.pos m) + e) - e) as n eqn:Hn.
  destruct n as [|n|n]; rewrite ?shr_record_of_loc_m; try (split; [lia|reflexivity]).
  rewrite iter_shr_1_m by (rewrite shr_record_of_loc_m; lia).
  rewrite shr_record_of_loc_m.
  simpl Zdigits2 in *. rewrite digits2_log2 in *.
  assert (Hle : Z.pos n <= Z.log2 (Z.pos m))
    by (unfold fexp in Hn; lia).
  assert (Hlog : Z.log2 (Z.shiftr (Z.pos m) (Z.pos n))
                 = Z.log2 (Z.pos m) - Z.pos n)
    by (rewrite Z.log2_shiftr by lia; lia).
  assert (Hpos : 1 <= Z.shiftr (Z.pos m) (Z.pos n)).
  { rewrite Z.shiftr_div_pow2 by lia.
    apply Z.div_le_lower_bound; [apply Z.pow_pos_nonneg; lia|].
    rewrite Z.mul_1_r.
    transitivity (2 ^ Z.log2 (Z.pos m)).
    - apply Z.pow_le_mono_r; lia.
    - apply Z.log2_spec. lia. }
  split; [exact Hpos|].
  destruct (Z.shiftr (Z.pos m) (Z.pos n)) as [|q|q] eqn:Hq; try lia.
  simpl Zdigits2. rewrite digits2_log2. lia.
Qed.

Lemma round_nearest_even_ge m l : m <= round_nearest_even m l.
Proof. destruct l as [|[]]; simpl; try lia. destruct (Z.even m); lia. Qed.

Lemma Zdigits2_mono a b : 1 <= a <= b -> Zdigits2 a <= Zdigits2 b.
Proof.
  intros H. destruct a as [|a|a], b as [|b|b]; try lia.
  simpl. rewrite !digits2_log2.
  pose proof (Z.log2_le_mono (Z.pos a) (Z.pos b)). lia.
Qed.

Lemma binary_round_aux_regular s m e l :
  1 <= m -> emin prec emax + 1 <= Zdigits2 m + e ->
  regular (binary_round_aux prec emax s m e l).
Proof.
  intros Hm He. unfold binary_round_aux.
  pose proof (shr_fexp_positive m e l Hm He) as H1.
  destruct (shr_fexp prec emax m e l) as [mrs' e'].
  destruct H1 as [Hm1 Hd1].
  pose proof (round_nearest_even_ge (shr_m mrs') (loc_of_shr_record mrs'))
    as Hge.
  set (m2 := round_nearest_even (shr_m mrs') (loc_of_shr_record mrs')) in *.
  assert (Hd2 : emin prec emax + 1 <= Zdigits2 m2 + e').
  { pose proof (Zdigits2_mono (shr_m mrs') m2 ltac:(lia)). lia. }
  pose proof (shr_fexp_positive m2 e' loc_Exact ltac:(lia) Hd2) as H2.
  destruct (shr_fexp prec emax m2 e' loc_Exact) as [mrs'' e''].
  destruct H2 as [Hm2 _].
  destruct (shr_m mrs'') as [|q|q]; try lia.
  destruct (e'' <=? emax - prec); exact I.
Qed.

Lemma digits2_iter_xO m d :
  Z.pos (digits2_pos (Pos.iter xO m d)) = Z.pos (digits2_pos m) + Z.pos d.
Proof.
  induction d as [|d IH] using Pos.peano_ind.
  - simpl. lia.
  - rewrite Pos.iter_succ. simpl digits2_pos. lia.
Qed.

Lemma binary_normalize_regular (p : positive) :
  emin prec emax <= 0 ->
  regular (binary_normalize prec emax (Z.pos p) 0 false).
Proof.
  intros Hemin. unfold binary_normalize, binary_round, shl_align.
  destruct (fexp prec emax (Z.pos (digits2_pos p) + 0) - 0) as [|d|d] eqn:Hd;
    apply binary_round_aux_regular; simpl Zdigits2; try lia.
  rewrite digits2_iter_xO. unfold fexp in *. lia.
Qed.

End FloatFacts.

(** ** The peak level of a clip *)

Section PeakFacts.

















Context {L : AudioLib}.


End PeakFacts.

Section ClampFacts.
Context {L : AudioLib}.


End ClampFacts.

(** ** Format conversions *)

Section FormatProperties.
Context {L : AudioLib}.

Lemma rbind_ok {A B} (r : result A) (f : A -> result B) (b : B) :
  rbind r f = Ok b -> exists a, r = Ok a /\ f a = Ok b.
Proof. destruct r as [a|e]; simpl; intros H; [eauto | discriminate]. Qed.

Lemma spawn_plain data w r c :
  w <> 3 -> _spawn data w r c = mkSegment data w r c.
Proof.
  intros Hw. unfold _spawn.
  destruct (Z.eqb_spec w 3); [contradiction | reflexivity].
Qed.

Lemma spawn_rate_channels data w r c :
  frame_rate (_spawn data w r c) = r /\ channels (_spawn data w r c) = c.
Proof. unfold _spawn. destruct (w =? 3); simpl; auto. Qed.

Lemma set_frame_rate_same seg :
  set_frame_rate seg (frame_rate seg) = Ok seg.
Proof. unfold set_frame_rate. now rewrite Z.eqb_refl. Qed.

Lemma set_sample_width_same seg :
  set_sample_width seg (sample_width seg) = Ok seg.
Proof. unfold set_sample_width. now rewrite Z.eqb_refl. Qed.

Lemma set_channels_same seg :
  set_channels seg (channels seg) = Ok seg.
Proof. unfold set_channels. now rewrite Z.eqb_refl. Qed.

Lemma set_frame_rate_result seg r s :
  set_frame_rate seg r = Ok s -> frame_rate s = r.
Proof.
  unfold set_frame_rate. destruct (Z.eqb_spec r (frame_rate seg)).
  - intros; inv_ok. congruence.
  - intros H. apply rbind_ok in H as (d & _ & H). inv_ok.
    apply spawn_rate_channels.
Qed.

Lemma set_sample_width_2_result seg s :
  set_sample_width seg 2 = Ok s ->
  sample_width s = 2 /\ frame_rate s = frame_rate seg.
Proof.
  unfold set_sample_width. destruct (Z.eqb_spec 2 (sample_width seg)).
  - intros; inv_ok. auto.
  - intros H. apply rbind_ok in H as (d & _ & H). inv_ok.
    rewrite spawn_plain by lia. auto.
Qed.

Lemma set_channels_2_result seg s :
  sample_width seg = 2 ->
  set_channels seg 2 = Ok s ->
  channels s = 2 /\ sample_width s = 2 /\ frame_rate s = frame_rate seg.
Proof.
  intros Hw. unfold set_channels.
  destruct (Z.eqb_spec 2 (channels seg)) as [Hc|Hc].
  - intros; inv_ok. auto.
  - simpl. destruct (Z.eqb_spec (channels seg) 1) as [H1|H1]; simpl.
    + intros H. apply rbind_ok in H as (d & _ & H). inv_ok.
      rewrite Hw, spawn_plain by lia. auto.
    + discriminate.
Qed.

Lemma standardize_is_standard seg s :
  _standardize_segment seg = Ok s -> is_standard s.
Proof.
  unfold _standardize_segment. intros H.
  apply rbind_ok in H as (s1 & H1 & H).
  apply rbind_ok in H as (s2 & H2 & H).
  apply set_frame_rate_result in H1.
  apply set_sample_width_2_result in H2 as [Hw Hr].
  apply set_channels_2_result in H as (Hc & Hw' & Hr'); [|assumption].
  unfold is_standard. repeat split; congruence.
Qed.

Lemma standardize_of_standard seg :
  is_standard seg -> _standardize_segment seg = Ok seg.
Proof.
  intros (Hr & Hw & Hc). unfold _standardize_segment.
  rewrite <- Hr at 1. rewrite set_frame_rate_same. simpl.
  rewrite <- Hw at 1. rewrite set_sample_width_same. simpl.
  rewrite <- Hc at 1. apply set_channels_same.
Qed.

(** C8. Standardization is idempotent: standardizing twice (the second
    time on the outcome of the first, an error staying an error) is the
    same as standardizing once, for every clip. *)
Theorem C8_standardize_idempotent (c : AudioSegment) :
  (let! c' := _standardize_segment c in _standardize_segment c')
  = _standardize_segment c.
Proof.
  destruct (_standardize_segment c) as [c'|e] eqn:H; simpl.
  - apply standardize_of_standard. eapply standardize_is_standard; eauto.
  - reflexivity.
Qed.

End FormatProperties.

(** ** Gain, peak and concatenation *)

Section GainProperties.
Context {L : AudioLib}.


Lemma apply_gain_inv seg g c :
  apply_gain seg g = Ok c ->
  exists factor,
    db_to_float g = Ok factor /\
    1 <= sample_width seg <= 4 /\
    c = _spawn (map (mul_sample (sample_width seg) factor) (samples seg))
          (sample_width seg) (frame_rate seg) (channels seg).
Proof.
  unfold apply_gain. intros H.
  apply rbind_ok in H as (factor & Hf & H).
  apply rbind_ok in H as (data & Hd & H).
  unfold audioop_mul in Hd.
  destruct ((1 <=? sample_width seg) && (sample_width seg <=? 4)) eqn:Hw;
    [|discriminate].
  apply andb_prop in Hw as [H1 H4].
  apply Z.leb_le in H1, H4. inv_ok.
  exists factor. auto.
Qed.




Lemma apply_gain_shape seg g c :
  sample_width seg <> 3 ->
  apply_gain seg g = Ok c ->
  length (samples c) = length (samples seg)
  /\ sample_width c = sample_width seg
  /\ frame_rate c = frame_rate seg
  /\ channels c = channels seg.
Proof.
  intros H3 H. apply apply_gain_inv in H as (factor & _ & _ & ->).
  rewrite spawn_plain by assumption. simpl.
  rewrite length_map. auto.
Qed.

Lemma normalize_shape seg t c :
  sample_width seg <> 3 ->
  _normalize_lufs seg t = Ok c ->
  length (samples c) = length (samples seg)
  /\ sample_width c = sample_width seg
  /\ frame_rate c = frame_rate seg
  /\ channels c = channels seg.
Proof.
  intros H3. unfold _normalize_lufs. intros H.
  apply rbind_ok in H as (arr & _ & H).
  destruct (negb (np_any arr)).
  - inv_ok. auto.
  - apply rbind_ok in H as (l & _ & H).
    eapply apply_gain_shape; eauto.
Qed.

Lemma post_mix_shape self seg c :
  sample_width seg <> 3 ->
  _post_mix self seg = Ok c ->
  length (samples c) = length (samples seg)
  /\ sample_width c = sample_width seg
  /\ frame_rate c = frame_rate seg
  /\ channels c = channels seg.
Proof.
  intros H3. unfold _post_mix. intros H.
  apply rbind_ok in H as (s & Hs & H).
  assert (Hshape : length (samples s) = length (samples seg)
                   /\ sample_width s = sample_width seg
                   /\ frame_rate s = frame_rate seg
                   /\ channels s = channels seg).
  { destruct (F64.ltb (F64.of_Z 0) (max_dBFS seg)).
    - eapply apply_gain_shape; eauto.
    - inv_ok. auto. }
  destruct Hshape as (Hl & Hw & Hr & Hc).
  apply normalize_shape in H as (Hl' & Hw' & Hr' & Hc'); [|congruence].
  repeat split; congruence.
Qed.

Lemma normalize_standard seg t c :
  is_standard seg -> _normalize_lufs seg t = Ok c -> is_standard c.
Proof.
  intros (Hr & Hw & Hc) H.
  apply normalize_shape in H as (_ & Hw' & Hr' & Hc'); [|lia].
  unfold is_standard. repeat split; congruence.
Qed.

Lemma sync_standard a b :
  is_standard a -> is_standard b -> _sync a b = Ok (a, b).
Proof.
  intros (Hra & Hwa & Hca) (Hrb & Hwb & Hcb). unfold _sync.
  rewrite Hra, Hrb, Hwa, Hwb, Hca, Hcb. simpl Z.max.
  assert (conv : forall s, is_standard s ->
            (let! s1 := set_channels s 2 in
             let! s2 := set_frame_rate s1 44100 in
             set_sample_width s2 2) = Ok s).
  { intros s (Hr & Hw & Hc).
    unfold set_channels. rewrite Hc. simpl.
    unfold set_frame_rate. rewrite Hr. simpl.
    unfold set_sample_width. rewrite Hw. reflexivity. }
  rewrite !conv by (unfold is_standard; auto). reflexivity.
Qed.

Lemma seg_add_standard a b :
  is_standard a -> is_standard b ->
  seg_add a b = Ok (mkSegment (samples a ++ samples b) 2 44100 2).
Proof.
  intros Ha Hb. unfold seg_add. rewrite sync_standard by assumption.
  simpl. destruct Ha as (-> & -> & ->). reflexivity.
Qed.

End GainProperties.

Section MixProperties.
Context {L : AudioLib}.

Lemma frame_count_standard seg :
  is_standard seg ->
  frame_count seg = Z.of_nat (length (samples seg)) / 2.
Proof. intros (_ & _ & Hc). unfold frame_count. now rewrite Hc. Qed.

Lemma duration_standard seg :
  is_standard seg ->
  (duration_seconds seg == inject_Z (frame_count seg) / 44100)%Q.
Proof.
  intros (Hr & _ & _). unfold duration_seconds. rewrite Hr. reflexivity.
Qed.


(** C7. Mixing three standardized clips, as [_run] does with
    [intro_music + speech + outro_music], gives their samples one after
    the other in that order, in the standard format; the mix has as many
    frames, and lasts as long, as the three clips together, and the final
    peak and loudness stage keeps that length. *)
Theorem C7_mix_is_concatenation (self : AudioGeneratorAgent)
    (intro speech outro : AudioSegment) :
  is_standard intro -> is_standard speech -> is_standard outro ->
  whole_frames intro -> whole_frames speech -> whole_frames outro ->
  exists composite : AudioSegment,
    mix_timeline intro speech outro = Ok composite
    /\ samples composite = samples intro ++ samples speech ++ samples outro
    /\ is_standard composite
    /\ frame_count composite
       = frame_count intro + frame_count speech + frame_count outro
    /\ (duration_seconds composite
        == duration_seconds intro + duration_seconds speech
           + duration_seconds outro)%Q
    /\ forall final : AudioSegment,
         _post_mix self composite = Ok final ->
         is_standard final
         /\ frame_count final = frame_count composite
         /\ (duration_seconds final == duration_seconds composite)%Q.
Proof.
  intros Hi Hs Ho Wi Ws Wo.
  set (composite :=
         mkSegment ((samples intro ++ samples speech) ++ samples outro)
           2 44100 2).
  assert (Hstd : is_standard composite) by (repeat split).
  assert (Hfc : frame_count composite
                = frame_count intro + frame_count speech
                  + frame_count outro).
  { rewrite !frame_count_standard by assumption.
    unfold whole_frames in *.
    destruct Hi as (_ & _ & Hci), Hs as (_ & _ & Hcs), Ho as (_ & _ & Hco).
    rewrite Hci in Wi. rewrite Hcs in Ws. rewrite Hco in Wo.
    subst composite. simpl samples.
    rewrite !length_app, !Nat2Z.inj_add.
    apply Z.mod_divide in Wi as [qi Ei]; [|lia].
    apply Z.mod_divide in Ws as [qs Es]; [|lia].
    apply Z.mod_divide in Wo as [qo Eo]; [|lia].
    rewrite Ei, Es, Eo.
    replace (qi * 2 + qs * 2 + qo * 2) with ((qi + qs + qo) * 2) by lia.
    rewrite !Z.div_mul by lia. reflexivity. }
  exists composite. split; [|split; [|split; [|split; [|split]]]].
  - unfold mix_timeline. rewrite (seg_add_standard intro speech) by assumption.
    simpl. rewrite seg_add_standard; [reflexivity | repeat split | assumption].
  - subst composite. simpl. now rewrite <- app_assoc.
  - exact Hstd.
  - exact Hfc.
  - rewrite !duration_standard by assumption. rewrite Hfc.
    rewrite !inject_Z_plus. field.
  - intros final Hfinal.
    apply post_mix_shape in Hfinal as (Hl & Hw & Hr & Hc);
      [|subst composite; simpl; lia].
    assert (Hsf : is_standard final).
    { destruct Hstd as (Hr' & Hw' & Hc').
      unfold is_standard. repeat split; congruence. }
    assert (Hff : frame_count final = frame_count composite).
    { rewrite !frame_count_standard by assumption. now rewrite Hl. }
    repeat split; try apply Hsf; [exact Hff|].
    rewrite !duration_standard by assumption. now rewrite Hff.
Qed.

End MixProperties.

(** ** The float view and silence *)

Section LoudnessProperties.
Context {L : AudioLib}.

Abbreviation zero32 x := (F32.is_zero x = true).

Lemma f32_of_Z_regular (n : Z) : 1 <= n -> regular (F32.of_Z n).
Proof.
  intros Hn. destruct n as [|p|p]; try lia.
  apply binary_normalize_regular; vm_compute; [reflexivity | discriminate].
Qed.

Lemma f32_add_zero x y : zero32 x -> zero32 y -> zero32 (F32.add x y).
Proof.
  destruct x as [sx| | |], y as [sy| | |]; try discriminate.
  destruct sx, sy; reflexivity.
Qed.

Lemma f32_div_zero x y : zero32 x -> regular y -> zero32 (F32.div x y).
Proof.
  destruct x as [sx| | |], y as [sy|sy| |sy my ey]; simpl;
    try discriminate; try contradiction; reflexivity.
Qed.

Lemma fold_add_zero (row : list f32) : forall x,
  zero32 x -> Forall (fun y => zero32 y) row ->
  zero32 (fold_left F32.add row x).
Proof.
  induction row as [|y row IH]; intros x Hx Hrow; simpl; [assumption|].
  inversion Hrow; subst. apply IH; [apply f32_add_zero|]; assumption.
Qed.

Lemma row_mean_zero (row : list f32) :
  row <> [] -> Forall (fun y => zero32 y) row -> zero32 (row_mean row).
Proof.
  destruct row as [|x rest]; [congruence|]. intros _ Hrow.
  inversion Hrow; subst. unfold row_mean.
  apply f32_div_zero; [apply fold_add_zero; assumption|].
  apply f32_of_Z_regular. simpl length. lia.
Qed.

Lemma chunks_zero (fuel c : nat) : forall l : list f32,
  (1 <= c)%nat -> Forall (fun y => zero32 y) l ->
  Forall (fun row => row <> [] /\ Forall (fun y => zero32 y) row)
         (chunks fuel c l).
Proof.
  induction fuel as [|fuel IH]; intros l Hc Hl; simpl; [constructor|].
  destruct l as [|x l]; [constructor|].
  constructor.
  - split.
    + destruct c; [lia | discriminate].
    + apply Forall_take. assumption.
  - apply IH; [assumption | apply Forall_drop; assumption].
Qed.

Lemma astype_zero (xs : list Z) :
  Forall (fun x => x = 0) xs ->
  Forall (fun y => zero32 y) (astype_float32 xs).
Proof.
  unfold astype_float32. rewrite Forall_map.
  apply List.Forall_impl. intros x ->. reflexivity.
Qed.

Lemma np_any_zero (arr : list f32) :
  Forall (fun y => zero32 y) arr -> np_any arr = false.
Proof.
  induction 1 as [|x l Hx _ IH]; simpl; [reflexivity|].
  now rewrite Hx, IH.
Qed.

Lemma float_array_divides_by_int16_max (seg : AudioSegment) :
  _segment_to_float_array seg
  = let! mono := mono_float_samples seg in
    Ok (map (fun x => F32.div x (F32.of_Z 32767)) mono).
Proof.
  unfold _segment_to_float_array, mono_float_samples.
  destruct (get_array_of_samples seg) as [raw|e]; simpl; [|reflexivity].
  change (F64.eqb (F64.of_Z max_int16) (F64.of_Z 0)) with false.
  destruct (1 <? channels seg); simpl; [|reflexivity].
  destruct (reshape_rows (channels seg) (astype_float32 raw)); reflexivity.
Qed.

Lemma silent_float_array (seg : AudioSegment) :
  well_formed seg -> all_zero seg ->
  exists arr, _segment_to_float_array seg = Ok arr
              /\ Forall (fun y => zero32 y) arr.
Proof.
  intros [Hw Hc Hf _] Hz. rewrite float_array_divides_by_int16_max.
  assert (Hmono : exists mono, mono_float_samples seg = Ok mono
                               /\ Forall (fun y => zero32 y) mono).
  { unfold mono_float_samples, get_array_of_samples.
    assert (Hwb : (sample_width seg =? 1) || (sample_width seg =? 2)
                  || (sample_width seg =? 4) = true).
    { simpl in Hw. destruct Hw as [<-|[<-|[<-|[]]]]; reflexivity. }
    rewrite Hwb. simpl.
    destruct (1 <? channels seg) eqn:Hch.
    - unfold reshape_rows.
      replace (length (astype_float32 (samples seg)))
        with (length (samples seg))
        by (unfold astype_float32; now rewrite length_map).
      rewrite Hf. simpl. eexists. split; [reflexivity|].
      rewrite Forall_map.
      eapply List.Forall_impl;
        [|apply chunks_zero; [lia | apply astype_zero; exact Hz]].
      intros row [Hne Hrow]. apply row_mean_zero; assumption.
    - eexists. split; [reflexivity | apply astype_zero; exact Hz]. }
  destruct Hmono as (mono & -> & Hmono). simpl.
  eexists. split; [reflexivity|].
  rewrite Forall_map. eapply List.Forall_impl; [|exact Hmono].
  intros x Hx. apply f32_div_zero; [assumption|].
  exact (f32_of_Z_regular 32767 ltac:(lia)).
Qed.

(** C6. Loudness normalization of a silent clip, whatever the target,
    returns the very clip it was given: no gain is computed or applied
    and no error is raised. *)
Theorem C6_silence_is_noop (seg : AudioSegment) (target : f64) :
  well_formed seg -> all_zero seg ->
  _normalize_lufs seg target = Ok seg.
Proof.
  intros Hwf Hz.
  destruct (silent_float_array seg Hwf Hz) as (arr & Harr & Hzero).
  unfold _normalize_lufs. rewrite Harr. simpl.
  now rewrite (np_any_zero arr Hzero).
Qed.

(** C4. The float view folds the clip to mono by averaging
    each frame and divides by 32767, the largest 16-bit amplitude,
    whatever the clip's sample width; for a clip of 2-byte samples that
    is the division by the clip's own largest amplitude.  When some
    entry of the view is non-zero, one integrated loudness is measured
    on the whole view and the gain is the target minus it. *)
Theorem C4_float_view_uses_int16_scale (seg : AudioSegment) (target : f64) :
  _segment_to_float_array seg
  = (let! mono := mono_float_samples seg in
     Ok (map (fun x => F32.div x (F32.of_Z 32767)) mono))
  /\ (sample_width seg = 2 ->
      _segment_to_float_array seg = to_float_samples_spec seg)
  /\ (forall arr : list f32,
         _segment_to_float_array seg = Ok arr -> np_any arr = true ->
         _normalize_lufs seg target
         = let! loudness := integrated_loudness (frame_rate seg) arr in
           apply_gain seg (F64.sub target loudness)).
Proof.
  split; [apply float_array_divides_by_int16_max|]. split.
  - intros Hw. rewrite float_array_divides_by_int16_max.
    unfold to_float_samples_spec. rewrite Hw. reflexivity.
  - intros arr Harr Hany. unfold _normalize_lufs.
    rewrite Harr. simpl. now rewrite Hany.
Qed.

End LoudnessProperties.

(** ** Payload resolution in [_synthesize] *)

Section SynthesisProperties.
Context {L : AudioLib}.
Variable env : Env.

Abbreviation falsy response := (fun k => truthy (probe response k) = false).

Lemma first_truthy_split response (keys : list string) (k : string) :
  In k keys -> truthy (probe response k) = true ->
  exists pre k0 post,
    keys = pre ++ k0 :: post
    /\ Forall (falsy response) pre
    /\ truthy (probe response k0) = true.
Proof.
  induction keys as [|k' keys IH]; intros Hin Hk; [contradiction|].
  destruct (truthy (probe response k')) eqn:Hk'.
  - exists [], k', keys. repeat split; auto.
  - destruct Hin as [->|Hin]; [congruence|].
    destruct (IH Hin Hk) as (pre & k0 & post & -> & Hpre & Hk0).
    exists (k' :: pre), k0, post. repeat split; auto.
Qed.

Lemma find_encoded_first response pre k post :
  Forall (falsy response) pre ->
  truthy (probe response k) = true ->
  find_encoded response (pre ++ k :: post)
  = match b64decode (probe response k) with
    | Some audio_bytes => Ok (Some audio_bytes)
    | None => Raise PayloadDecodeError
    end.
Proof.
  intros Hpre Hk. induction Hpre as [|k' pre Hk' _ IH]; simpl.
  - now rewrite Hk.
  - now rewrite Hk'.
Qed.

Lemma find_encoded_none response keys :
  Forall (falsy response) keys -> find_encoded response keys = Ok None.
Proof.
  induction 1 as [|k keys Hk _ IH]; simpl; [reflexivity|]. now rewrite Hk.
Qed.

Lemma find_url_first self response pre k post h :
  Forall (falsy response) pre ->
  truthy (probe response k) = true ->
  find_url env self response (pre ++ k :: post) h
  = (match requests_get env h (probe response k) (http_timeout self) with
     | Some audio_bytes => Ok (Some audio_bytes)
     | None => Raise (DownloadError k)
     end,
     h ++ [EvHttpGet (probe response k) (http_timeout self)]).
Proof.
  intros Hpre Hk. induction Hpre as [|k' pre Hk' _ IH]; simpl.
  - rewrite Hk. unfold bind, call.
    destruct (requests_get env h (probe response k) (http_timeout self));
      reflexivity.
  - now rewrite Hk'.
Qed.

Lemma find_url_log self response keys h :
  exists rest,
    snd (find_url env self response keys h) = h ++ rest
    /\ Forall is_http_get rest.
Proof.
  induction keys as [|k keys IH]; simpl.
  - exists []. rewrite app_nil_r. split; [reflexivity | constructor].
  - destruct (truthy (probe response k)); [|exact IH].
    exists [EvHttpGet (probe response k) (http_timeout self)].
    split; [|repeat constructor].
    unfold bind, call.
    destruct (requests_get env h (probe response k) (http_timeout self));
      reflexivity.
Qed.

Lemma use_payload_run (audio_bytes : option (list byte)) h :
  match audio_bytes with
  | None | Some [] => raise NoAudioPayloadError
  | Some audio_bytes =>
      match from_file_bytes audio_bytes "mp3" with
      | Ok speech_segment => lift (_standardize_segment speech_segment)
      | Raise _ => raise DecodeError
      end
  end h
  = (match audio_bytes with
     | None => Raise NoAudioPayloadError
     | Some _ => use_payload audio_bytes
     end, h).
Proof.
  destruct audio_bytes as [[|b bs]|]; simpl; try reflexivity.
  destruct (from_file_bytes (b :: bs) "mp3"); reflexivity.
Qed.

(** [_synthesize], step by step. *)
Lemma synthesize_eq self script h :
  _synthesize env self script h
  = let req := tts_request self script in
    let h1 := h ++ [EvGenerate req] in
    match murf_generate env h req with
    | Raise e => (Raise e, h1)
    | Ok response =>
        match find_encoded response encoded_keys with
        | Raise e => (Raise e, h1)
        | Ok (Some audio_bytes) => (use_payload (Some audio_bytes), h1)
        | Ok None =>
            match find_url env self response url_keys h1 with
            | (Raise e, h2) => (Raise e, h2)
            | (Ok (Some audio_bytes), h2) =>
                (use_payload (Some audio_bytes), h2)
            | (Ok None, h2) =>
                (match response with
                 | RespBytes b => use_payload (Some b)
                 | _ => Raise NoAudioPayloadError
                 end, h2)
            end
        end
    end.
Proof.
  unfold _synthesize. cbv zeta.
  unfold bind at 1. unfold call at 1.
  unfold bind at 1. unfold lift at 1.
  destruct (murf_generate env h (tts_request self script)) as [response|e];
    [|reflexivity].
  unfold bind at 1. unfold lift at 1.
  destruct (find_encoded response encoded_keys) as [[audio_bytes|]|e];
    [| |reflexivity].
  - unfold bind, ret. apply (use_payload_run (Some audio_bytes)).
  - unfold bind at 1.
    destruct (find_url env self response url_keys
                (h ++ [EvGenerate (tts_request self script)]))
      as [[[audio_bytes|]|e] h2]; [| |reflexivity].
    + apply (use_payload_run (Some audio_bytes)).
    + destruct response; try apply (use_payload_run None).
      apply (use_payload_run (Some b)).
Qed.

Lemma synthesize_log self script h :
  exists rest,
    snd (_synthesize env self script h)
    = h ++ EvGenerate (tts_request self script) :: rest
    /\ Forall is_http_get rest.
Proof.
  rewrite synthesize_eq. cbv zeta.
  destruct (murf_generate env h (tts_request self script)) as [response|e];
    [|exists []; split; [reflexivity | constructor]].
  destruct (find_encoded response encoded_keys) as [[audio_bytes|]|e];
    try (exists []; split; [reflexivity | constructor]).
  destruct (find_url_log self response url_keys
              (h ++ [EvGenerate (tts_request self script)]))
    as (rest & Hlog & Hrest).
  exists rest. split; [|exact Hrest].
  rewrite <- app_assoc in Hlog. cbn [app] in Hlog. rewrite <- Hlog.
  destruct (find_url env self response url_keys
              (h ++ [EvGenerate (tts_request self script)]))
    as [[[audio_bytes|]|e] h2]; reflexivity.
Qed.

Lemma use_payload_standard (payload : option (list byte)) s :
  use_payload payload = Ok s -> is_standard s.
Proof.
  destruct payload as [[|b bs]|]; simpl; try discriminate.
  destruct (from_file_bytes (b :: bs) "mp3"); [|discriminate].
  apply standardize_is_standard.
Qed.

(** Whatever [_synthesize] returns is a standardized clip. *)
Lemma synthesize_standard self script h s h' :
  _synthesize env self script h = (Ok s, h') -> is_standard s.
Proof.
  rewrite synthesize_eq. cbv zeta.
  destruct (murf_generate env h (tts_request self script)) as [response|e];
    [|discriminate].
  destruct (find_encoded response encoded_keys) as [[audio_bytes|]|e];
    [| |discriminate].
  - intros H. injection H as H _.
    exact (use_payload_standard (Some audio_bytes) s H).
  - destruct (find_url env self response url_keys _)
      as [[[audio_bytes|]|e] h2]; [| |discriminate].
    + intros H. injection H as H _.
      exact (use_payload_standard (Some audio_bytes) s H).
    + destruct response as [|d|b|o]; try discriminate.
      intros H. injection H as H _.
      exact (use_payload_standard (Some b) s H).
Qed.

(** C1. When the response carries a non-empty inline field under a
    recognized key (and a URL field as well), [_synthesize] decodes the
    first such inline field in probe order and its outcome is what that
    decoding gives; the only call that leaves the process is the request
    to the synthesis service: no download is issued. *)
Theorem C1_inline_payload_wins (self : AudioGeneratorAgent)
    (script : string) (h : list Event) (response : Response)
    (k_inline k_url : string) :
  murf_generate env h (tts_request self script) = Ok response ->
  In k_inline encoded_keys -> truthy (probe response k_inline) = true ->
  In k_url url_keys -> truthy (probe response k_url) = true ->
  exists pre k post,
    encoded_keys = pre ++ k :: post
    /\ Forall (falsy response) pre
    /\ truthy (probe response k) = true
    /\ _synthesize env self script h
       = (use_payload (b64decode (probe response k)),
          h ++ [EvGenerate (tts_request self script)]).
Proof.
  intros Hgen Hin Hk _ _.
  destruct (first_truthy_split response encoded_keys k_inline Hin Hk)
    as (pre & k & post & Hsplit & Hpre & Hk0).
  exists pre, k, post. repeat split; try assumption.
  rewrite synthesize_eq. cbv zeta. rewrite Hgen, Hsplit.
  rewrite (find_encoded_first response pre k post Hpre Hk0).
  destruct (b64decode (probe response k)); reflexivity.
Qed.

(** C2. When the first recognized inline key, in probe order,
    that holds a non-empty value holds one that fails to base64-decode,
    [_synthesize] raises the payload decode error at once: nothing but
    the request to the service has happened, so neither the URL fields
    nor the raw-bytes path were tried. *)
Theorem C2_first_inline_decode_failure_is_fatal
    (self : AudioGeneratorAgent) (script : string) (h : list Event)
    (response : Response) (pre : list string) (k : string)
    (post : list string) :
  murf_generate env h (tts_request self script) = Ok response ->
  encoded_keys = pre ++ k :: post ->
  Forall (falsy response) pre ->
  truthy (probe response k) = true ->
  b64decode (probe response k) = None ->
  _synthesize env self script h
  = (Raise PayloadDecodeError,
     h ++ [EvGenerate (tts_request self script)]).
Proof.
  intros Hgen Hsplit Hpre Hk Hdec.
  rewrite synthesize_eq. cbv zeta. rewrite Hgen, Hsplit.
  rewrite (find_encoded_first response pre k post Hpre Hk), Hdec.
  reflexivity.
Qed.

Lemma probe_delete_empty (d : gmap string PyVal) (k : string) (v : PyVal)
    (key : string) :
  d !! k = Some v -> truthy v = false ->
  probe (RespDict d) key = probe (RespDict (delete k d)) key.
Proof.
  intros Hd Hv. unfold probe, dict_get, py_or. simpl.
  destruct (decide (key = k)) as [->|Hne].
  - rewrite Hd, lookup_delete_eq, Hv. reflexivity.
  - now rewrite lookup_delete_ne by congruence.
Qed.

(** C10. When the first recognized inline key, in probe order,
    that holds a non-empty value holds one that decodes to zero bytes,
    [_synthesize] raises the no-payload error and nothing but the request
    to the service has happened.  A recognized key whose value is present
    but empty is probed exactly as if it were absent; and when no
    recognized inline key holds a non-empty value, the search goes on to
    the URL fields and downloads from the first non-empty one. *)
Theorem C10_empty_decode_and_empty_field
    (self : AudioGeneratorAgent) (script : string) (h : list Event)
    (response : Response) :
  murf_generate env h (tts_request self script) = Ok response ->
  (forall pre k post,
      encoded_keys = pre ++ k :: post ->
      Forall (falsy response) pre ->
      truthy (probe response k) = true ->
      b64decode (probe response k) = Some [] ->
      _synthesize env self script h
      = (Raise NoAudioPayloadError,
         h ++ [EvGenerate (tts_request self script)]))
  /\ (forall (d : gmap string PyVal) (k : string) (v : PyVal),
         d !! k = Some v -> truthy v = false ->
         forall keys,
           find_encoded (RespDict d) keys
           = find_encoded (RespDict (delete k d)) keys)
  /\ (forall pre k post,
         Forall (falsy response) encoded_keys ->
         url_keys = pre ++ k :: post ->
         Forall (falsy response) pre ->
         truthy (probe response k) = true ->
         let h1 := h ++ [EvGenerate (tts_request self script)] in
         _synthesize env self script h
         = (match requests_get env h1 (probe response k)
                    (http_timeout self) with
            | Some audio_bytes => use_payload (Some audio_bytes)
            | None => Raise (DownloadError k)
            end,
            h1 ++ [EvHttpGet (probe response k) (http_timeout self)])).
Proof.
  intros Hgen. split; [|split].
  - intros pre k post Hsplit Hpre Hk Hdec.
    rewrite synthesize_eq. cbv zeta. rewrite Hgen, Hsplit.
    rewrite (find_encoded_first response pre k post Hpre Hk), Hdec.
    reflexivity.
  - intros d k v Hd Hv keys.
    induction keys as [|key keys IH]; simpl; [reflexivity|].
    rewrite <- (probe_delete_empty d k v key Hd Hv), IH. reflexivity.
  - intros pre k post Hnone Hsplit Hpre Hk.
    rewrite synthesize_eq. cbv zeta. rewrite Hgen.
    rewrite (find_encoded_none response encoded_keys Hnone), Hsplit.
    rewrite (find_url_first self response pre k post _ Hpre Hk).
    destruct (requests_get env (h ++ [EvGenerate (tts_request self script)])
                (probe response k) (http_timeout self));
      reflexivity.
Qed.

End SynthesisProperties.

(** ** The run: empty script, missing asset, retry *)

Section RunProperties.
Context {L : AudioLib}.
Variable env : Env.

Lemma load_music_missing self path fade_in fade_out h :
  path_exists env h path = false ->
  _load_music env self path fade_in fade_out h
  = (Raise (MissingAssetError path), h ++ [EvPathExists path]).
Proof.
  intros Hmiss. unfold _load_music, bind, call. now rewrite Hmiss.
Qed.

(** Whatever [_load_music] returns is a standardized clip. *)
Lemma load_music_standard self path fade_in fade_out h s h' :
  _load_music env self path fade_in fade_out h = (Ok s, h') ->
  is_standard s.
Proof.
  unfold _load_music, bind, call, lift, ret, raise.
  destruct (negb (path_exists env h path)); [discriminate|].
  destruct (from_file_path env (h ++ [EvPathExists path]) path)
    as [segment|e]; [|discriminate].
  destruct (negb (fade_in =? 0) && (0 <? fade_in)).
  - destruct (seg_fade_in segment fade_in) as [s1|e]; [|discriminate].
    destruct (negb (fade_out =? 0) && (0 <? fade_out)).
    + destruct (seg_fade_out s1 fade_out) as [s2|e]; [|discriminate].
      intros H. injection H as H _. eapply standardize_is_standard; eauto.
    + intros H. injection H as H _. eapply standardize_is_standard; eauto.
  - destruct (negb (fade_out =? 0) && (0 <? fade_out)).
    + destruct (seg_fade_out segment fade_out) as [s2|e]; [|discriminate].
      intros H. injection H as H _. eapply standardize_is_standard; eauto.
    + intros H. injection H as H _. eapply standardize_is_standard; eauto.
Qed.

Lemma run_body_script self inputs script h :
  inputs !! "podcast_script" = Some script -> script <> "" ->
  _run_body env self inputs h
  = match _synthesize env self script h with
    | (Raise e, h1) => (Raise e, h1)
    | (Ok synthesized, h1) =>
        match _normalize_lufs synthesized
                (F64.add (target_lufs self) (speech_delta_db self)) with
        | Raise e => (Raise e, h1)
        | Ok speech =>
            match _load_music env self (intro_path self) 2000 0 h1 with
            | (Raise e, h2) => (Raise e, h2)
            | (Ok intro, h2) =>
                (let* intro_music :=
                   lift (_normalize_lufs intro
                           (F64.add (target_lufs self)
                                    (music_delta_db self))) in
                 let* outro := _load_music env self (outro_path self) 0 1500 in
                 let* outro_music :=
                   lift (_normalize_lufs outro
                           (F64.add (target_lufs self)
                                    (music_delta_db self))) in
                 let* composite :=
                   lift (mix_timeline intro_music speech outro_music) in
                 let* final_audio := lift (_post_mix self composite) in
                 let* exported :=
                   call (fun h => export_file env h (output_path self)
                                    final_audio)
                        (EvExport (output_path self) final_audio "mp3"
                                  "320k" ["-ar"; "44100"]) in
                 let* _ := lift exported in
                 ret ({[ "final_audio_path" := output_path self ]}
                        : gmap string string)) h2
            end
        end
    end.
Proof.
  intros Hin Hne. unfold _run_body. rewrite Hin.
  destruct (String.eqb_spec script ""); [contradiction|].
  unfold bind at 1.
  destruct (_synthesize env self script h) as [[s|e] h1]; [|reflexivity].
  unfold bind at 1. unfold lift at 1.
  destruct (_normalize_lufs s _) as [speech|e]; [|reflexivity].
  unfold bind at 1.
  destruct (_load_music env self (intro_path self) 2000 0 h1)
    as [[intro|e] h2]; reflexivity.
Qed.

Lemma run_body_missing_intro self inputs script h :
  inputs !! "podcast_script" = Some script -> script <> "" ->
  (forall h', path_exists env h' (intro_path self) = false) ->
  exists e rest,
    _run_body env self inputs h
    = (Raise e, h ++ EvGenerate (tts_request self script) :: rest)
    /\ Forall (fun ev => ~ is_export ev) rest.
Proof.
  intros Hin Hne Hmiss. rewrite (run_body_script _ _ _ _ Hin Hne).
  destruct (synthesize_log env self script h) as (rest & Hlog & Hrest).
  assert (Hnoexp : Forall (fun ev => ~ is_export ev) rest).
  { eapply List.Forall_impl; [|exact Hrest]. intros [] Hev; auto. }
  destruct (_synthesize env self script h) as [[s|e] h1]; simpl in Hlog;
    subst h1; [|eauto].
  destruct (_normalize_lufs s _) as [speech|e]; [|eauto].
  rewrite load_music_missing by apply Hmiss.
  exists (MissingAssetError (intro_path self)),
         (rest ++ [EvPathExists (intro_path self)]).
  split.
  - now rewrite <- app_assoc.
  - apply Forall_app. split; [assumption|]. repeat constructor. auto.
Qed.

(** C9. When the script is absent or empty, [_run] raises the
    empty-input error; all that happened on the way is the retry
    policy's pause between its two attempts: no request was sent to the
    synthesis service and nothing was downloaded. *)
Theorem C9_empty_script_makes_no_request (self : AudioGeneratorAgent)
    (inputs : gmap string string) (h : list Event) :
  inputs !! "podcast_script" = None
  \/ inputs !! "podcast_script" = Some "" ->
  _run env self inputs h = (Raise EmptyInputError, h ++ [EvSleep 2]).
Proof.
  intros [Hin|Hin]; unfold _run, retrying, _run_body; rewrite Hin;
    reflexivity.
Qed.

(** C3. With a non-empty script and no intro asset on disk,
    every attempt begins with the request to the synthesis service, and
    its outcome is fixed by the synthesis: the synthesis error when the
    synthesis raises, the normalization error when the speech cannot be
    normalized, and otherwise the missing-asset error for the intro path,
    right after looking for the file.  The run as a whole, retry
    included, also begins with that request, ends in the error of its
    second attempt and exports nothing. *)
Theorem C3_missing_intro_found_after_synthesis
    (self : AudioGeneratorAgent) (inputs : gmap string string)
    (script : string) :
  inputs !! "podcast_script" = Some script -> script <> "" ->
  (forall h, path_exists env h (intro_path self) = false) ->
  forall h : list Event,
    _run_body env self inputs h
    = match _synthesize env self script h with
      | (Raise e, h1) => (Raise e, h1)
      | (Ok synthesized, h1) =>
          match _normalize_lufs synthesized
                  (F64.add (target_lufs self) (speech_delta_db self)) with
          | Raise e => (Raise e, h1)
          | Ok _ =>
              (Raise (MissingAssetError (intro_path self)),
               h1 ++ [EvPathExists (intro_path self)])
          end
      end
    /\ (exists downloads,
           snd (_synthesize env self script h)
           = h ++ EvGenerate (tts_request self script) :: downloads
           /\ Forall is_http_get downloads)
    /\ (exists e rest,
           _run_body env self inputs h
           = (Raise e, h ++ EvGenerate (tts_request self script) :: rest)
           /\ Forall (fun ev => ~ is_export ev) rest)
    /\ (forall synthesized h1 speech,
           _synthesize env self script h = (Ok synthesized, h1) ->
           _normalize_lufs synthesized
             (F64.add (target_lufs self) (speech_delta_db self))
           = Ok speech ->
           _run_body env self inputs h
           = (Raise (MissingAssetError (intro_path self)),
              h1 ++ [EvPathExists (intro_path self)]))
    /\ (exists e rest,
           _run env self inputs h
           = (Raise e, h ++ EvGenerate (tts_request self script) :: rest)
           /\ Forall (fun ev => ~ is_export ev) rest)
    /\ _run env self inputs h
       = _run_body env self inputs
           (snd (_run_body env self inputs h) ++ [EvSleep 2]).
Proof.
  intros Hin Hne Hmiss h.
  assert (Hbody : forall h0,
             _run_body env self inputs h0
             = match _synthesize env self script h0 with
               | (Raise e, h1) => (Raise e, h1)
               | (Ok synthesized, h1) =>
                   match _normalize_lufs synthesized
                           (F64.add (target_lufs self)
                                    (speech_delta_db self)) with
                   | Raise e => (Raise e, h1)
                   | Ok _ =>
                       (Raise (MissingAssetError (intro_path self)),
                        h1 ++ [EvPathExists (intro_path self)])
                   end
               end).
  { intros h0. rewrite (run_body_script _ _ _ _ Hin Hne).
    destruct (_synthesize env self script h0) as [[s|e] h1]; [|reflexivity].
    destruct (_normalize_lufs s _) as [speech|e]; [|reflexivity].
    now rewrite load_music_missing by apply Hmiss. }
  split; [apply Hbody|]. split; [apply synthesize_log|].
  split; [apply run_body_missing_intro; assumption|]. split; [|split].
  - intros s h1 speech Hsyn Hnorm. now rewrite Hbody, Hsyn, Hnorm.
  - unfold _run, retrying.
    destruct (run_body_missing_intro self inputs script h Hin Hne Hmiss)
      as (e1 & rest1 & -> & Hrest1).
    destruct (run_body_missing_intro self inputs script
                ((h ++ EvGenerate (tts_request self script) :: rest1)
                   ++ [EvSleep 2]) Hin Hne Hmiss)
      as (e2 & rest2 & -> & Hrest2).
    exists e2,
      (rest1 ++ EvSleep 2 :: EvGenerate (tts_request self script) :: rest2).
    split.
    + f_equal. rewrite <- !app_assoc. reflexivity.
    + apply Forall_app. split; [assumption|].
      constructor; [auto|]. constructor; [auto | assumption].
  - unfold _run, retrying.
    destruct (run_body_missing_intro self inputs script h Hin Hne Hmiss)
      as (e1 & rest1 & -> & _).
    simpl.
    now destruct (_run_body env self inputs
                    ((h ++ EvGenerate (tts_request self script) :: rest1)
                       ++ [EvSleep 2])) as [[r|e] h2].
Qed.

End RunProperties.

(** ** The example library's logarithm and power *)

Section SampleLibrary.







End SampleLibrary.

(** * The agent on concrete inputs *)

Section Examples.

Lemma C1_witness :
  exists pre k post,
    encoded_keys = pre ++ k :: post
    /\ Forall (fun k' => truthy (probe Sample.inline_and_url k') = false) pre
    /\ truthy (probe Sample.inline_and_url k) = true
    /\ @_synthesize Sample.lib (Sample.world Sample.inline_and_url [])
         default_agent "hello" []
       = (@use_payload Sample.lib
            (@b64decode Sample.lib (probe Sample.inline_and_url k)),
          [] ++ [EvGenerate (tts_request default_agent "hello")]).
Proof.
  apply (@C1_inline_payload_wins Sample.lib
           (Sample.world Sample.inline_and_url []) default_agent "hello" []
           Sample.inline_and_url "encodedAudio" "url").
  - reflexivity.
  - simpl. auto.
  - vm_compute. reflexivity.
  - simpl. auto.
  - vm_compute. reflexivity.
Defined.

(** An inline field that decodes and a URL field, behind an earlier
    inline field that does not decode: the payload that decodes is never
    looked at. *)
Lemma C1_counterexample :
  In "encodedAudio" encoded_keys
  /\ truthy (probe Sample.bad_then_good "encodedAudio") = true
  /\ @b64decode Sample.lib (probe Sample.bad_then_good "encodedAudio")
     = Some [x41; x42; x43]
  /\ In "url" url_keys
  /\ truthy (probe Sample.bad_then_good "url") = true
  /\ @_synthesize Sample.lib (Sample.world Sample.bad_then_good [])
       default_agent "hello" []
     = (Raise PayloadDecodeError,
        [EvGenerate (tts_request default_agent "hello")]).
Proof.
  split; [simpl; auto|]. split; [reflexivity|].
  split; [vm_compute; reflexivity|]. split; [simpl; auto|].
  split; [reflexivity | vm_compute; reflexivity].
Qed.

(** Two inline fields: the first decodes, the second does not. *)
Lemma C2_counterexample :
  @murf_generate (Sample.world Sample.good_then_bad []) []
    (tts_request default_agent "hello") = Ok Sample.good_then_bad
  /\ In "encodedAudio" encoded_keys
  /\ truthy (probe Sample.good_then_bad "encodedAudio") = true
  /\ @b64decode Sample.lib (probe Sample.good_then_bad "encodedAudio") = None
  /\ fst (@_synthesize Sample.lib (Sample.world Sample.good_then_bad [])
            default_agent "hello" [])
     <> Raise PayloadDecodeError.
Proof.
  repeat split; try reflexivity.
  - simpl. auto.
  - vm_compute. discriminate.
Qed.

Lemma C2_witness :
  @_synthesize Sample.lib (Sample.world Sample.only_bad []) default_agent "hello" []
  = (Raise PayloadDecodeError,
     [] ++ [EvGenerate (tts_request default_agent "hello")]).
Proof.
  apply (@C2_first_inline_decode_failure_is_fatal Sample.lib
           (Sample.world Sample.only_bad []) default_agent "hello" [] Sample.only_bad
           ["encoded_audio"] "encodedAudio"
           ["encodedAudioBase64"; "encodedAudio64"]).
  - reflexivity.
  - reflexivity.
  - repeat constructor.
  - vm_compute. reflexivity.
  - vm_compute. reflexivity.
Defined.

(** No intro asset on disk and a service that answers nothing: the
    request is sent, in both attempts, and the error is about the payload,
    not about the asset. *)
Lemma C3_counterexample :
  Sample.hello_inputs !! "podcast_script" = Some "hello"
  /\ (forall h, path_exists (Sample.world RespNone []) h
                  (intro_path default_agent) = false)
  /\ @_run Sample.lib (Sample.world RespNone []) default_agent
       Sample.hello_inputs []
     = (Raise NoAudioPayloadError,
        [EvGenerate (tts_request default_agent "hello"); EvSleep 2;
         EvGenerate (tts_request default_agent "hello")]).
Proof.
  split; [reflexivity|]. split; [reflexivity|]. vm_compute. reflexivity.
Qed.

Lemma C3_witness :
  @_run_body Sample.lib (Sample.world RespNone []) default_agent
    Sample.hello_inputs []
  = (Raise NoAudioPayloadError,
     [EvGenerate (tts_request default_agent "hello")])
  /\ (exists e rest,
         @_run_body Sample.lib (Sample.world Sample.inline_and_url [])
           default_agent Sample.hello_inputs []
         = (Raise e,
            [] ++ EvGenerate (tts_request default_agent "hello") :: rest)
         /\ Forall (fun ev => ~ is_export ev) rest)
  /\ (exists e rest,
         @_run Sample.lib (Sample.world Sample.inline_and_url []) default_agent
           Sample.hello_inputs []
         = (Raise e,
            [] ++ EvGenerate (tts_request default_agent "hello") :: rest)
         /\ Forall (fun ev => ~ is_export ev) rest).
Proof.
  split.
  - exact (proj1 (@C3_missing_intro_found_after_synthesis Sample.lib
                    (Sample.world RespNone []) default_agent
                    Sample.hello_inputs "hello" eq_refl ltac:(discriminate)
                    (fun _ => eq_refl) [])).
  - destruct (@C3_missing_intro_found_after_synthesis Sample.lib
                (Sample.world Sample.inline_and_url []) default_agent
                Sample.hello_inputs "hello" eq_refl ltac:(discriminate)
                (fun _ => eq_refl) [])
      as (_ & _ & Hbody & _ & Hrun & _).
    exact (conj Hbody Hrun).
Defined.

(** One 32-bit sample at full scale comes out above 1 and not as the
    division by its own width's maximum would give it; one standardized
    frame at -32768 comes out below -1. *)
Lemma C4_counterexample :
  well_formed Sample.loud32
  /\ (exists x,
         _segment_to_float_array Sample.loud32 = Ok [x]
         /\ F32.ltb (F32.of_Z 1) x = true
         /\ _segment_to_float_array Sample.loud32
            <> to_float_samples_spec Sample.loud32)
  /\ well_formed Sample.floor16
  /\ (exists y,
         _segment_to_float_array Sample.floor16 = Ok [y]
         /\ F32.ltb y (F32.of_Z (-1)) = true).
Proof.
  split.
  { constructor; simpl; [auto | lia | reflexivity |].
    repeat constructor; vm_compute; discriminate. }
  split.
  { eexists. split; [vm_compute; reflexivity|].
    split; [vm_compute; reflexivity | vm_compute; discriminate]. }
  split.
  { constructor; simpl; [auto | lia | reflexivity |].
    repeat constructor; vm_compute; discriminate. }
  eexists. split; [vm_compute; reflexivity | vm_compute; reflexivity].
Qed.

Lemma C4_witness :
  _segment_to_float_array Sample.speech
  = to_float_samples_spec Sample.speech
  /\ exists arr,
       _segment_to_float_array Sample.speech = Ok arr
       /\ np_any arr = true
       /\ @_normalize_lufs Sample.lib Sample.speech (F64.of_Z (-14))
          = let! loudness :=
              @integrated_loudness Sample.lib 44100 arr in
            @apply_gain Sample.lib Sample.speech
              (F64.sub (F64.of_Z (-14)) loudness).
Proof.
  destruct (@C4_float_view_uses_int16_scale Sample.lib Sample.speech
              (F64.of_Z (-14)))
    as (_ & Hspec & Hloud).
  split; [exact (Hspec eq_refl)|].
  eexists. split; [vm_compute; reflexivity|].
  split; [vm_compute; reflexivity|].
  apply Hloud; vm_compute; reflexivity.
Defined.


Lemma C6_witness :
  well_formed Sample.music /\ all_zero Sample.music
  /\ @_normalize_lufs Sample.lib Sample.music (F64.of_Z (-14))
     = Ok Sample.music.
Proof.
  assert (Hwf : well_formed Sample.music).
  { constructor; simpl; [auto | lia | reflexivity |].
    repeat constructor; vm_compute; discriminate. }
  assert (Hz : all_zero Sample.music) by (repeat constructor).
  split; [exact Hwf|]. split; [exact Hz|].
  exact (@C6_silence_is_noop Sample.lib Sample.music (F64.of_Z (-14))
           Hwf Hz).
Defined.

Lemma C7_witness :
  exists composite : AudioSegment,
    @mix_timeline Sample.lib Sample.jingle Sample.speech Sample.music
    = Ok composite
    /\ samples composite = [0; 0] ++ [100; -100; 5; 7] ++ [0; 0; 0; 0]
    /\ frame_count composite = 1 + 2 + 2.
Proof.
  destruct (@C7_mix_is_concatenation Sample.lib default_agent
              Sample.jingle Sample.speech Sample.music)
    as (composite & Hmix & Hsamples & _ & Hframes & _);
    try (repeat split; reflexivity); try reflexivity.
  exists composite. repeat split; assumption.
Defined.

Lemma C9_witness :
  @_run Sample.lib (Sample.world RespNone []) default_agent
    Sample.empty_inputs []
  = (Raise EmptyInputError, [] ++ [EvSleep 2]).
Proof.
  apply (@C9_empty_script_makes_no_request Sample.lib
           (Sample.world RespNone []) default_agent
           Sample.empty_inputs []).
  right. reflexivity.
Defined.

(** Two inline fields: the first decodes to audio, the second to
    nothing. *)
Lemma C10_counterexample :
  In "encodedAudio" encoded_keys
  /\ truthy (probe Sample.good_then_blank "encodedAudio") = true
  /\ @b64decode Sample.lib (probe Sample.good_then_blank "encodedAudio") = Some []
  /\ fst (@_synthesize Sample.lib (Sample.world Sample.good_then_blank [])
            default_agent "hello" [])
     <> Raise NoAudioPayloadError.
Proof.
  repeat split; try reflexivity.
  - simpl. auto.
  - vm_compute. discriminate.
Qed.

Lemma C10_witness :
  @_synthesize Sample.lib (Sample.world Sample.only_blank []) default_agent
    "hello" []
  = (Raise NoAudioPayloadError,
     [] ++ [EvGenerate (tts_request default_agent "hello")])
  /\ @_synthesize Sample.lib (Sample.world Sample.empty_then_url [])
       default_agent "hello" []
     = (Raise (DownloadError "audio_file"),
        ([] ++ [EvGenerate (tts_request default_agent "hello")])
          ++ [EvHttpGet (PyStr "http://unreachable") 30]).
Proof.
  split.
  - apply (proj1 (@C10_empty_decode_and_empty_field Sample.lib
                    (Sample.world Sample.only_blank []) default_agent "hello" []
                    Sample.only_blank eq_refl)
             ["encoded_audio"] "encodedAudio"
             ["encodedAudioBase64"; "encodedAudio64"]).
    + reflexivity.
    + repeat constructor.
    + vm_compute. reflexivity.
    + vm_compute. reflexivity.
  - apply (proj2 (proj2 (@C10_empty_decode_and_empty_field Sample.lib
                           (Sample.world Sample.empty_then_url []) default_agent
                           "hello" [] Sample.empty_then_url eq_refl))
             [] "audio_file" ["audioFile"; "url"; "audio_url"; "signedUrl"]).
    + repeat constructor.
    + reflexivity.
    + constructor.
    + vm_compute. reflexivity.
Defined.

End Examples.

(** * Further properties of the audio agent *)

Section SynthesisPaths.
Context {L : AudioLib}.
Variable env : Env.

Lemma find_url_short self response keys h :
  exists rest,
    snd (find_url env self response keys h) = h ++ rest
    /\ (length rest <= 1)%nat
    /\ Forall is_http_get rest.
Proof.
  induction keys as [|k keys IH]; simpl.
  - exists []. rewrite app_nil_r.
    split; [reflexivity | split; [simpl; lia | constructor]].
  - destruct (truthy (probe response k)); [|exact IH].
    exists [EvHttpGet (probe response k) (http_timeout self)].
    split; [|split; [simpl; lia | repeat constructor]].
    unfold bind, call.
    destruct (requests_get env h (probe response k) (http_timeout self));
      reflexivity.
Qed.

Lemma find_url_none self response keys h :
  Forall (fun k => truthy (probe response k) = false) keys ->
  find_url env self response keys h = (Ok None, h).
Proof.
  induction 1 as [|k keys Hk _ IH]; simpl; [reflexivity|]. now rewrite Hk.
Qed.

(** X1. Whatever the service answers, [_synthesize] first sends the one
    request to it and afterwards issues at most one download: a failed
    download is never followed by a try of another URL field.  When the
    request itself raises, that exception is what [_synthesize] raises and
    nothing else has happened. *)
Theorem X1_synthesize_one_request_one_download
    (self : AudioGeneratorAgent) (script : string) (h : list Event) :
  (exists rest,
      snd (_synthesize env self script h)
      = h ++ EvGenerate (tts_request self script) :: rest
      /\ (length rest <= 1)%nat
      /\ Forall is_http_get rest)
  /\ match murf_generate env h (tts_request self script) with
     | Raise e =>
         _synthesize env self script h
         = (Raise e, h ++ [EvGenerate (tts_request self script)])
     | Ok _ => True
     end.
Proof.
  rewrite synthesize_eq. cbv zeta.
  destruct (murf_generate env h (tts_request self script)) as [response|e].
  - split; [|exact I].
    destruct (find_encoded response encoded_keys) as [[audio_bytes|]|e];
      try (exists []; split; [reflexivity | split; [simpl; lia | constructor]]).
    destruct (find_url_short self response url_keys
                (h ++ [EvGenerate (tts_request self script)]))
      as (rest & Hlog & Hlen & Hrest).
    exists rest. split; [|split; assumption].
    rewrite <- app_assoc in Hlog. cbn [app] in Hlog. rewrite <- Hlog.
    destruct (find_url env self response url_keys
                (h ++ [EvGenerate (tts_request self script)]))
      as [[[audio_bytes|]|e] h2]; reflexivity.
  - split; [|reflexivity].
    exists []. split; [reflexivity | split; [simpl; lia | constructor]].
Qed.

Lemma probe_bytes (b : list byte) (k : string) : probe (RespBytes b) k = PyNone.
Proof. reflexivity. Qed.

(** X2. When the service hands back a raw byte string, that byte string is
    the payload: [_synthesize] decodes and standardizes it (or raises the
    no-payload error when it is empty), and only the request to the service
    has happened. *)
Theorem X2_raw_bytes_response_is_the_payload
    (self : AudioGeneratorAgent) (script : string) (h : list Event)
    (b : list byte) :
  murf_generate env h (tts_request self script) = Ok (RespBytes b) ->
  _synthesize env self script h
  = (use_payload (Some b), h ++ [EvGenerate (tts_request self script)]).
Proof.
  intros Hgen. rewrite synthesize_eq. cbv zeta. rewrite Hgen.
  rewrite find_encoded_none, find_url_none;
    try (apply Forall_forall; intros k _; reflexivity).
  reflexivity.
Qed.

(** X3. When the response is no byte string and no recognized inline or
    URL key holds a non-empty value (as for [None], an empty dict, or a
    dict of other keys), [_synthesize] raises the no-payload error after
    the request to the service alone. *)
Theorem X3_unrecognized_response_has_no_payload
    (self : AudioGeneratorAgent) (script : string) (h : list Event)
    (response : Response) :
  murf_generate env h (tts_request self script) = Ok response ->
  Forall (fun k => truthy (probe response k) = false)
         (encoded_keys ++ url_keys) ->
  (forall b, response <> RespBytes b) ->
  _synthesize env self script h
  = (Raise NoAudioPayloadError,
     h ++ [EvGenerate (tts_request self script)]).
Proof.
  intros Hgen Hkeys Hnot. apply Forall_app in Hkeys as [Henc Hurl].
  rewrite synthesize_eq. cbv zeta. rewrite Hgen.
  rewrite (find_encoded_none _ _ Henc), (find_url_none _ _ _ _ Hurl).
  destruct response as [|d|b|o]; try reflexivity.
  now destruct (Hnot b).
Qed.

(** X4. Every clip the agent obtains, from the service or from a music
    file, comes back standardized: 44100 Hz, 2 bytes per sample, 2
    channels. *)
Theorem X4_agent_clips_are_standardized
    (self : AudioGeneratorAgent) (h : list Event) (seg : AudioSegment)
    (h' : list Event) :
  (exists script, _synthesize env self script h = (Ok seg, h'))
  \/ (exists path fade_in fade_out,
         _load_music env self path fade_in fade_out h = (Ok seg, h')) ->
  is_standard seg.
Proof.
  intros [(script & H) | (path & fi & fo & H)].
  - eapply synthesize_standard; eauto.
  - eapply load_music_standard; eauto.
Qed.

End SynthesisPaths.

Section RunPaths.
Context {L : AudioLib}.
Variable env : Env.

Lemma load_music_eq self path fade_in fade_out h :
  _load_music env self path fade_in fade_out h
  = if path_exists env h path
    then ((let! segment :=
             from_file_path env (h ++ [EvPathExists path]) path in
           let! faded_in :=
             if 0 <? fade_in then seg_fade_in segment fade_in
             else Ok segment in
           let! faded_out :=
             if 0 <? fade_out then seg_fade_out faded_in fade_out
             else Ok faded_in in
           _standardize_segment faded_out),
          (h ++ [EvPathExists path]) ++ [EvFromFile path])
    else (Raise (MissingAssetError path), h ++ [EvPathExists path]).
Proof.
  unfold _load_music, bind, call, lift, ret, raise.
  destruct (path_exists env h path); simpl; [|reflexivity].
  destruct (from_file_path env (h ++ [EvPathExists path]) path)
    as [segment|e]; simpl; [|reflexivity].
  assert (Hpos : forall d, negb (d =? 0) && (0 <? d) = (0 <? d)).
  { intros d. destruct (Z.eqb_spec d 0), (Z.ltb_spec 0 d); simpl; lia. }
  rewrite !Hpos.
  destruct (0 <? fade_in).
  - destruct (seg_fade_in segment fade_in) as [s1|e]; simpl; [|reflexivity].
    destruct (0 <? fade_out); [|reflexivity].
    destruct (seg_fade_out s1 fade_out); reflexivity.
  - simpl. destruct (0 <? fade_out); [|reflexivity].
    destruct (seg_fade_out segment fade_out); reflexivity.
Qed.

Lemma load_music_log self path fade_in fade_out h :
  exists evs,
    snd (_load_music env self path fade_in fade_out h) = h ++ evs
    /\ quiet evs.
Proof.
  rewrite load_music_eq. destruct (path_exists env h path); simpl.
  - exists [EvPathExists path; EvFromFile path].
    split; [now rewrite <- app_assoc | repeat constructor].
  - exists [EvPathExists path]. split; [reflexivity | repeat constructor].
Qed.

(** X6. [_load_music] applies a fade only for a positive duration: with
    fade durations that are zero or negative the file is decoded and
    standardized and neither fade routine is run. *)
Theorem X6_load_music_skips_non_positive_fades
    (self : AudioGeneratorAgent) (path : string) (fade_in fade_out : Z)
    (h : list Event) :
  path_exists env h path = true ->
  fade_in <= 0 -> fade_out <= 0 ->
  _load_music env self path fade_in fade_out h
  = ((let! segment := from_file_path env (h ++ [EvPathExists path]) path in
      _standardize_segment segment),
     h ++ [EvPathExists path; EvFromFile path]).
Proof.
  intros Hex Hin Hout. rewrite load_music_eq, Hex.
  destruct (Z.ltb_spec 0 fade_in); [lia|].
  destruct (Z.ltb_spec 0 fade_out); [lia|].
  rewrite <- app_assoc. reflexivity.
Qed.

Lemma http_events_quiet (evs : list Event) :
  Forall is_http_get evs -> quiet evs.
Proof.
  intros H. eapply List.Forall_impl; [|exact H].
  intros [] Hev; try contradiction. repeat split.
Qed.

Lemma quiet_app (a b : list Event) : quiet a -> quiet b -> quiet (a ++ b).
Proof. intros Ha Hb. apply Forall_app. split; assumption. Qed.

Lemma quiet_counts (evs : list Event) :
  quiet evs ->
  count_events generate_b evs = O /\ count_events export_b evs = O
  /\ count_events sleep_b evs = O.
Proof.
  induction 1 as [|ev evs (Hg & He & Hs) _ (IHg & IHe & IHs)]; simpl; auto.
  now rewrite Hg, He, Hs.
Qed.

Lemma count_events_app p (a b : list Event) :
  count_events p (a ++ b) = (count_events p a + count_events p b)%nat.
Proof.
  induction a as [|ev a IH]; simpl; [reflexivity|].
  destruct (p ev); simpl; now rewrite IH.
Qed.

Ltac step := unfold bind at 1; try unfold lift at 1.

(** What a successful attempt went through. *)
Lemma run_body_ok_inv self inputs h r h' :
  _run_body env self inputs h = (Ok r, h') ->
  exists script synthesized h1 speech intro h2 intro_music outro h3
         outro_music composite final,
    inputs !! "podcast_script" = Some script
    /\ script <> ""
    /\ _synthesize env self script h = (Ok synthesized, h1)
    /\ _normalize_lufs synthesized
         (F64.add (target_lufs self) (speech_delta_db self)) = Ok speech
    /\ _load_music env self (intro_path self) 2000 0 h1 = (Ok intro, h2)
    /\ _normalize_lufs intro
         (F64.add (target_lufs self) (music_delta_db self)) = Ok intro_music
    /\ _load_music env self (outro_path self) 0 1500 h2 = (Ok outro, h3)
    /\ _normalize_lufs outro
         (F64.add (target_lufs self) (music_delta_db self)) = Ok outro_music
    /\ mix_timeline intro_music speech outro_music = Ok composite
    /\ _post_mix self composite = Ok final
    /\ h' = h3 ++ [EvExport (output_path self) final "mp3" "320k"
                            ["-ar"; "44100"]]
    /\ r = {[ "final_audio_path" := output_path self ]}.
Proof.
  unfold _run_body.
  destruct (inputs !! "podcast_script") as [script|] eqn:Hin;
    [|discriminate].
  destruct (String.eqb_spec script ""); [discriminate|].
  step. destruct (_synthesize env self script h) as [[s|e] h1] eqn:Hsyn;
    [|discriminate].
  step. destruct (_normalize_lufs s _) as [speech|e] eqn:Hsp; [|discriminate].
  step. destruct (_load_music env self (intro_path self) 2000 0 h1)
    as [[i|e] h2] eqn:Hi; [|discriminate].
  step. destruct (_normalize_lufs i _) as [im|e] eqn:Him; [|discriminate].
  step. destruct (_load_music env self (outro_path self) 0 1500 h2)
    as [[o|e] h3] eqn:Ho; [|discriminate].
  step. destruct (_normalize_lufs o _) as [om|e] eqn:Hom; [|discriminate].
  step. destruct (mix_timeline im speech om) as [composite|e] eqn:Hmix;
    [|discriminate].
  step. destruct (_post_mix self composite) as [final|e] eqn:Hpm;
    [|discriminate].
  step. unfold call at 1. step.
  destruct (export_file env h3 (output_path self) final) as [[]|e];
    [|discriminate].
  unfold ret. intros H. injection H as <- <-.
  exists script, s, h1, speech, i, h2, im, o, h3, om, composite, final.
  repeat split; auto.
Qed.

Abbreviation export_of self final :=
  (EvExport (output_path self) final "mp3" "320k" ["-ar"; "44100"]).

(** [_run_body], step by step. *)
Lemma run_body_eq self inputs h :
  _run_body env self inputs h
  = match inputs !! "podcast_script" with
    | None => (Raise EmptyInputError, h)
    | Some script =>
      if String.eqb script "" then (Raise EmptyInputError, h)
      else
      match _synthesize env self script h with
      | (Raise e, h1) => (Raise e, h1)
      | (Ok synthesized, h1) =>
      match _normalize_lufs synthesized
              (F64.add (target_lufs self) (speech_delta_db self)) with
      | Raise e => (Raise e, h1)
      | Ok speech =>
      match _load_music env self (intro_path self) 2000 0 h1 with
      | (Raise e, h2) => (Raise e, h2)
      | (Ok intro, h2) =>
      match _normalize_lufs intro
              (F64.add (target_lufs self) (music_delta_db self)) with
      | Raise e => (Raise e, h2)
      | Ok intro_music =>
      match _load_music env self (outro_path self) 0 1500 h2 with
      | (Raise e, h3) => (Raise e, h3)
      | (Ok outro, h3) =>
      match _normalize_lufs outro
              (F64.add (target_lufs self) (music_delta_db self)) with
      | Raise e => (Raise e, h3)
      | Ok outro_music =>
      match mix_timeline intro_music speech outro_music with
      | Raise e => (Raise e, h3)
      | Ok composite =>
      match _post_mix self composite with
      | Raise e => (Raise e, h3)
      | Ok final =>
          (match export_file env h3 (output_path self) final with
           | Ok _ => Ok {[ "final_audio_path" := output_path self ]}
           | Raise e => Raise e
           end,
           h3 ++ [export_of self final])
      end end end end end end end end
    end.
Proof.
  unfold _run_body.
  destruct (inputs !! "podcast_script") as [script|]; [|reflexivity].
  destruct (String.eqb script ""); [reflexivity|].
  step. destruct (_synthesize env self script h) as [[s|e] h1];
    [|reflexivity].
  step. destruct (_normalize_lufs s _) as [speech|e]; [|reflexivity].
  step. destruct (_load_music env self (intro_path self) 2000 0 h1)
    as [[i|e] h2]; [|reflexivity].
  step. destruct (_normalize_lufs i _) as [im|e]; [|reflexivity].
  step. destruct (_load_music env self (outro_path self) 0 1500 h2)
    as [[o|e] h3]; [|reflexivity].
  step. destruct (_normalize_lufs o _) as [om|e]; [|reflexivity].
  step. destruct (mix_timeline im speech om) as [composite|e];
    [|reflexivity].
  step. destruct (_post_mix self composite) as [final|e]; [|reflexivity].
  step. unfold call at 1. step.
  destruct (export_file env h3 (output_path self) final) as [[]|e];
    reflexivity.
Qed.

Lemma mix_standard a b c m :
  is_standard a -> is_standard b -> is_standard c ->
  mix_timeline a b c = Ok m ->
  is_standard m /\ samples m = samples a ++ samples b ++ samples c.
Proof.
  intros Ha Hb Hc. unfold mix_timeline.
  rewrite (seg_add_standard a b) by assumption. simpl.
  rewrite seg_add_standard; [|repeat split | assumption].
  intros H. injection H as <-. simpl.
  split; [repeat split | now rewrite <- app_assoc].
Qed.

Lemma post_mix_standard self seg final :
  is_standard seg -> _post_mix self seg = Ok final ->
  is_standard final /\ length (samples final) = length (samples seg).
Proof.
  intros (Hr & Hw & Hc) H.
  apply post_mix_shape in H as (Hl & Hw' & Hr' & Hc'); [|lia].
  split; [|assumption]. unfold is_standard. repeat split; congruence.
Qed.

(** The events of one attempt: none when the script is empty; otherwise the
    request to the service, then downloads and disk reads, then possibly
    the export. *)
Lemma run_body_events self inputs h :
  exists evs,
    snd (_run_body env self inputs h) = h ++ evs
    /\ ((evs = [] /\ fst (_run_body env self inputs h) = Raise EmptyInputError)
        \/ (exists script q e,
               inputs !! "podcast_script" = Some script /\ script <> ""
               /\ evs = EvGenerate (tts_request self script) :: q /\ quiet q
               /\ fst (_run_body env self inputs h) = Raise e)
        \/ (exists script q final,
               inputs !! "podcast_script" = Some script /\ script <> ""
               /\ evs = EvGenerate (tts_request self script)
                          :: q ++ [export_of self final]
               /\ quiet q /\ is_standard final
               /\ exists h2 outro h3,
                    _load_music env self (outro_path self) 0 1500 h2
                    = (Ok outro, h3))).
Proof.
  rewrite run_body_eq.
  destruct (inputs !! "podcast_script") as [script|];
    [|exists []; rewrite app_nil_r; auto].
  destruct (String.eqb_spec script "") as [->|Hne];
    [exists []; rewrite app_nil_r; auto|].
  destruct (synthesize_log env self script h) as (rest & Hlog & Hrest).
  apply http_events_quiet in Hrest.
  pose proof (synthesize_standard env self script h) as Hstd.
  destruct (_synthesize env self script h) as [[s|e] h1]; simpl in Hlog;
    subst h1;
    [|exists (EvGenerate (tts_request self script) :: rest);
      split; [reflexivity | right; left; exists script; do 2 eexists;
               split; [reflexivity|]; split; [exact Hne|];
               split; [reflexivity | split; [|reflexivity]]; assumption]].
  specialize (Hstd s _ eq_refl).
  destruct (_normalize_lufs s _) as [speech|e] eqn:Hsp;
    [|exists (EvGenerate (tts_request self script) :: rest);
      split; [reflexivity | right; left; exists script; do 2 eexists;
               split; [reflexivity|]; split; [exact Hne|];
               split; [reflexivity | split; [|reflexivity]]; assumption]].
  apply normalize_standard in Hsp; [|assumption].
  set (h1 := h ++ EvGenerate (tts_request self script) :: rest) in *.
  destruct (load_music_log self (intro_path self) 2000 0 h1)
    as (q1 & Hlog1 & Hq1).
  pose proof (load_music_standard env self (intro_path self) 2000 0 h1)
    as Hstd1.
  destruct (_load_music env self (intro_path self) 2000 0 h1)
    as [[i|e] h2]; simpl in Hlog1; subst h2;
    [|exists (EvGenerate (tts_request self script) :: rest ++ q1);
      split; [subst h1; now rewrite <- app_assoc
             | right; left; exists script; do 2 eexists;
               split; [reflexivity|]; split; [exact Hne|];
               split; [reflexivity | split; [|reflexivity]];
               auto using quiet_app]].
  specialize (Hstd1 i _ eq_refl).
  destruct (_normalize_lufs i _) as [im|e] eqn:Him;
    [|exists (EvGenerate (tts_request self script) :: rest ++ q1);
      split; [subst h1; now rewrite <- app_assoc
             | right; left; exists script; do 2 eexists;
               split; [reflexivity|]; split; [exact Hne|];
               split; [reflexivity | split; [|reflexivity]];
               auto using quiet_app]].
  apply normalize_standard in Him; [|assumption].
  set (h2 := h1 ++ q1) in *.
  destruct (load_music_log self (outro_path self) 0 1500 h2)
    as (q2 & Hlog2 & Hq2).
  pose proof (load_music_standard env self (outro_path self) 0 1500 h2)
    as Hstd2.
  assert (Hh3 : h2 ++ q2
                = h ++ EvGenerate (tts_request self script)
                       :: (rest ++ q1) ++ q2).
  { subst h2 h1. now rewrite <- !app_assoc. }
  assert (Hq : quiet ((rest ++ q1) ++ q2)) by auto using quiet_app.
  destruct (_load_music env self (outro_path self) 0 1500 h2)
    as [[o|e] h3] eqn:Houtro; simpl in Hlog2; subst h3;
    [|exists (EvGenerate (tts_request self script) :: (rest ++ q1) ++ q2);
      split; [exact Hh3 | right; left; exists script; do 2 eexists;
               split; [reflexivity|]; split; [exact Hne|];
               split; [reflexivity | split; [|reflexivity]]; assumption]].
  specialize (Hstd2 o _ eq_refl).
  destruct (_normalize_lufs o _) as [om|e] eqn:Hom;
    [|exists (EvGenerate (tts_request self script) :: (rest ++ q1) ++ q2);
      split; [exact Hh3 | right; left; exists script; do 2 eexists;
               split; [reflexivity|]; split; [exact Hne|];
               split; [reflexivity | split; [|reflexivity]]; assumption]].
  apply normalize_standard in Hom; [|assumption].
  destruct (mix_timeline im speech om) as [composite|e] eqn:Hmix;
    [|exists (EvGenerate (tts_request self script) :: (rest ++ q1) ++ q2);
      split; [exact Hh3 | right; left; exists script; do 2 eexists;
               split; [reflexivity|]; split; [exact Hne|];
               split; [reflexivity | split; [|reflexivity]]; assumption]].
  apply mix_standard in Hmix as [Hcs _]; try assumption.
  destruct (_post_mix self composite) as [final|e] eqn:Hpm;
    [|exists (EvGenerate (tts_request self script) :: (rest ++ q1) ++ q2);
      split; [exact Hh3 | right; left; exists script; do 2 eexists;
               split; [reflexivity|]; split; [exact Hne|];
               split; [reflexivity | split; [|reflexivity]]; assumption]].
  apply post_mix_standard in Hpm as [Hfs _]; [|assumption].
  exists (EvGenerate (tts_request self script)
            :: ((rest ++ q1) ++ q2) ++ [export_of self final]).
  split.
  - simpl. rewrite Hh3. now rewrite <- app_assoc.
  - right; right. exists script. do 2 eexists.
    split; [reflexivity|]. split; [exact Hne|].
    split; [reflexivity | split; [assumption | split; [assumption|]]].
    eauto.
Qed.

Lemma quiet_no_export (evs : list Event) :
  quiet evs -> Forall (fun ev => ~ is_export ev) evs.
Proof.
  intros H. eapply List.Forall_impl; [|exact H].
  intros [] (_ & He & _); simpl; auto. discriminate.
Qed.

(** X7. With a non-empty script and no outro asset on disk, an attempt
    that got as far as a normalized intro raises the missing-asset error
    for the outro path right after looking for the file; and the run as a
    whole, retry included, ends in an error and exports nothing. *)
Theorem X7_missing_outro_ends_the_run
    (self : AudioGeneratorAgent) (inputs : gmap string string)
    (script : string) :
  inputs !! "podcast_script" = Some script -> script <> "" ->
  (forall h, path_exists env h (outro_path self) = false) ->
  forall h : list Event,
    (forall synthesized h1 speech intro h2 intro_music,
        _synthesize env self script h = (Ok synthesized, h1) ->
        _normalize_lufs synthesized
          (F64.add (target_lufs self) (speech_delta_db self)) = Ok speech ->
        _load_music env self (intro_path self) 2000 0 h1 = (Ok intro, h2) ->
        _normalize_lufs intro
          (F64.add (target_lufs self) (music_delta_db self))
        = Ok intro_music ->
        _run_body env self inputs h
        = (Raise (MissingAssetError (outro_path self)),
           h2 ++ [EvPathExists (outro_path self)]))
    /\ (exists e evs,
           _run env self inputs h = (Raise e, h ++ evs)
           /\ Forall (fun ev => ~ is_export ev) evs).
Proof.
  intros Hin Hne Hmiss h. split.
  - intros s h1 speech i h2 im Hsyn Hsp Hi Him.
    rewrite run_body_eq, Hin.
    destruct (String.eqb_spec script ""); [contradiction|].
    rewrite Hsyn, Hsp, Hi, Him.
    now rewrite load_music_missing by apply Hmiss.
  - assert (Hbody : forall h0, exists e evs,
               _run_body env self inputs h0 = (Raise e, h0 ++ evs)
               /\ Forall (fun ev => ~ is_export ev) evs).
    { intros h0.
      destruct (run_body_events self inputs h0) as (evs & Hlog & Hcases).
      destruct (_run_body env self inputs h0) as [r h'] eqn:Hbody.
      simpl in Hlog, Hcases. subst h'.
      destruct Hcases
        as [[-> ->] | [(sc & q & e & _ & _ & -> & Hq & ->)
                      | (sc & q & final & _ & _ & _ & _ & _ & h2 & o & h3
                         & Ho)]].
      - exists EmptyInputError, []. split; [reflexivity | constructor].
      - exists e, (EvGenerate (tts_request self sc) :: q).
        split; [reflexivity|].
        constructor; [auto | now apply quiet_no_export].
      - rewrite load_music_missing in Ho by apply Hmiss. discriminate. }
    unfold _run, retrying.
    destruct (Hbody h) as (e1 & evs1 & -> & H1).
    destruct (Hbody ((h ++ evs1) ++ [EvSleep 2])) as (e2 & evs2 & -> & H2).
    exists e2, (evs1 ++ EvSleep 2 :: evs2). split.
    + f_equal. now rewrite <- !app_assoc.
    + apply Forall_app. split; [assumption|]. constructor; [auto | assumption].
Qed.



(** X9. A successful attempt returns exactly the mapping from
    [final_audio_path] to the configured output path, and the clip it
    exported, its last action, is standardized and holds as many samples
    as the intro, the synthesized speech and the outro together. *)
Theorem X9_successful_attempt
    (self : AudioGeneratorAgent) (inputs : gmap string string)
    (h : list Event) (r : gmap string string) (h' : list Event) :
  _run_body env self inputs h = (Ok r, h') ->
  r = {[ "final_audio_path" := output_path self ]}
  /\ exists script speech h1 intro h2 outro h3 final,
       inputs !! "podcast_script" = Some script
       /\ _synthesize env self script h = (Ok speech, h1)
       /\ _load_music env self (intro_path self) 2000 0 h1 = (Ok intro, h2)
       /\ _load_music env self (outro_path self) 0 1500 h2 = (Ok outro, h3)
       /\ h' = h3 ++ [EvExport (output_path self) final "mp3" "320k"
                               ["-ar"; "44100"]]
       /\ is_standard final
       /\ length (samples final)
          = (length (samples intro) + length (samples speech)
             + length (samples outro))%nat.
Proof.
  intros H. apply run_body_ok_inv in H
    as (script & s & h1 & speech & i & h2 & im & o & h3 & om & composite
        & final & Hin & Hne & Hsyn & Hsp & Hi & Him & Ho & Hom & Hmix & Hpm
        & -> & ->).
  split; [reflexivity|].
  pose proof (synthesize_standard _ _ _ _ _ _ Hsyn) as Ss.
  pose proof (load_music_standard _ _ _ _ _ _ _ _ Hi) as Si.
  pose proof (load_music_standard _ _ _ _ _ _ _ _ Ho) as So.
  pose proof (normalize_standard _ _ _ Ss Hsp) as Ss'.
  pose proof (normalize_standard _ _ _ Si Him) as Si'.
  pose proof (normalize_standard _ _ _ So Hom) as So'.
  assert (Hws : sample_width s <> 3) by (destruct Ss as (_ & -> & _); lia).
  assert (Hwi : sample_width i <> 3) by (destruct Si as (_ & -> & _); lia).
  assert (Hwo : sample_width o <> 3) by (destruct So as (_ & -> & _); lia).
  apply normalize_shape in Hsp as (Ls & _); [|assumption].
  apply normalize_shape in Him as (Li & _); [|assumption].
  apply normalize_shape in Hom as (Lo & _); [|assumption].
  apply mix_standard in Hmix as [Hc Hsamples]; try assumption.
  apply post_mix_standard in Hpm as [Hfs Lf]; [|assumption].
  exists script, s, h1, i, h2, o, h3, final.
  split; [assumption|]. split; [assumption|]. split; [assumption|].
  split; [assumption|]. split; [reflexivity|]. split; [assumption|].
  rewrite Lf, Hsamples, !length_app. lia.
Qed.

Lemma attempt_counts self inputs h :
  exists evs,
    snd (_run_body env self inputs h) = h ++ evs
    /\ (count_events generate_b evs <= 1)%nat
    /\ count_events sleep_b evs = O
    /\ (count_events export_b evs <= 1)%nat.
Proof.
  destruct (run_body_events self inputs h) as (evs & Hlog & Hcases).
  exists evs. split; [assumption|].
  destruct Hcases
    as [[-> _] | [(sc & q & e & _ & _ & -> & Hq & _)
                 | (sc & q & final & _ & _ & -> & Hq & _)]].
  - simpl. lia.
  - apply quiet_counts in Hq as (Hg & He & Hs). simpl. lia.
  - apply quiet_counts in Hq as (Hg & He & Hs). simpl.
    rewrite !count_events_app. simpl. lia.
Qed.

(** X10. A run makes at most two attempts: it sends at most two requests
    to the synthesis service, pauses at most once and exports at most
    twice.  An attempt that succeeds at once is the whole run, with no
    pause; after a failed first attempt and a pause of two seconds the
    outcome of the second attempt, success or error, is the outcome of
    the run. *)
Theorem X10_run_makes_at_most_two_attempts
    (self : AudioGeneratorAgent) (inputs : gmap string string)
    (h : list Event) :
  (exists evs,
      snd (_run env self inputs h) = h ++ evs
      /\ (count_events generate_b evs <= 2)%nat
      /\ (count_events sleep_b evs <= 1)%nat
      /\ (count_events export_b evs <= 2)%nat)
  /\ match _run_body env self inputs h with
     | (Ok r, h1) => _run env self inputs h = (Ok r, h1)
     | (Raise _, h1) =>
         _run env self inputs h
         = _run_body env self inputs (h1 ++ [EvSleep 2])
     end.
Proof.
  unfold _run, retrying.
  destruct (attempt_counts self inputs h) as (evs1 & Hlog1 & Hg1 & Hs1 & He1).
  destruct (_run_body env self inputs h) as [[r|e] h1] eqn:Hbody;
    simpl in Hlog1; subst h1.
  - split; [|reflexivity]. exists evs1. simpl. repeat split; lia.
  - destruct (attempt_counts self inputs ((h ++ evs1) ++ [EvSleep 2]))
      as (evs2 & Hlog2 & Hg2 & Hs2 & He2).
    split.
    + exists (evs1 ++ EvSleep 2 :: evs2).
      destruct (_run_body env self inputs ((h ++ evs1) ++ [EvSleep 2]))
        as [[r2|e2] h2]; simpl in Hlog2 |- *; subst h2;
        (split; [now rewrite <- !app_assoc|]);
        rewrite !count_events_app; simpl; lia.
    + now destruct (_run_body env self inputs ((h ++ evs1) ++ [EvSleep 2]))
        as [[r2|e2] h2].
Qed.

End RunPaths.

(** ** Start-up *)

(** X11. The toolchain check passes exactly when the ffmpeg path is
    non-empty and exists; a missing ffprobe alone never fails it, since
    ffprobe falls back to the ffmpeg path.  [__post_init__] reports a
    missing toolchain before it looks at the API key, and gets to create
    the output directory only with a working toolchain and a non-empty
    key. *)
Theorem X11_startup_checks (st : Startup) (self : AudioGeneratorAgent) :
  (_ensure_audio_toolchain st = []
   /\ nonempty (ffmpeg_exe st) = true
   /\ file_exists st (ffmpeg_exe st) = true
   \/ (_ensure_audio_toolchain st = ["ffmpeg"]
       \/ _ensure_audio_toolchain st = ["ffmpeg"; "ffprobe"])
      /\ (nonempty (ffmpeg_exe st) = false
          \/ file_exists st (ffmpeg_exe st) = false))
  /\ match __post_init__ st self with
     | ToolchainMissing => _ensure_audio_toolchain st <> []
     | ApiKeyMissing =>
         _ensure_audio_toolchain st = []
         /\ (murf_api_key st = None \/ murf_api_key st = Some "")
     | Ready api_key dir =>
         _ensure_audio_toolchain st = []
         /\ murf_api_key st = Some api_key /\ api_key <> ""
         /\ dir = output_path self
     end.
Proof.
  split.
  - unfold _ensure_audio_toolchain, ffprobe, converter.
    destruct (nonempty (ffmpeg_exe st)) eqn:Hne; simpl.
    + destruct (file_exists st (ffmpeg_exe st)) eqn:Hex; simpl.
      * left. destruct (which_ffprobe st) as [p|];
          [destruct (nonempty p) eqn:Hp|]; rewrite ?Hp, ?Hne; auto.
      * right. split; [|auto].
        destruct (which_ffprobe st) as [p|];
          [destruct (nonempty p) eqn:Hp|]; rewrite ?Hp, ?Hne; auto.
    + right. split; [|auto].
      destruct (which_ffprobe st) as [p|];
        [destruct (nonempty p) eqn:Hp|]; rewrite ?Hp, ?Hne; auto.
  - unfold __post_init__.
    destruct (_ensure_audio_toolchain st) as [|m ms]; [|discriminate].
    destruct (murf_api_key st) as [key|]; [|auto].
    unfold nonempty. destruct (String.eqb_spec key ""); simpl.
    + subst. auto.
    + auto.
Qed.

(** * The text agents *)

(** ** Whitespace *)

Section Whitespace.

Lemma isspace_space : isspace 32 = true.
Proof. reflexivity. Qed.

Lemma lstrip_suffix (s : pystr) :
  exists pre, s = pre ++ lstrip s /\ Forall (fun c => isspace c = true) pre.
Proof.
  induction s as [|c s (pre & Hs & Hpre)]; simpl.
  - exists []. split; [reflexivity | constructor].
  - destruct (isspace c) eqn:Hc.
    + exists (c :: pre). split; [simpl; congruence | constructor; assumption].
    + exists []. split; [reflexivity | constructor].
Qed.

Lemma rstrip_prefix (s : pystr) :
  exists post, s = rstrip s ++ post /\ Forall (fun c => isspace c = true) post.
Proof.
  induction s as [|c s (post & Hs & Hpost)]; simpl.
  - exists []. split; [reflexivity | constructor].
  - destruct (rstrip s) as [|k kept] eqn:Hr.
    + destruct (isspace c) eqn:Hc.
      * exists (c :: post). simpl in Hs. subst s.
        split; [reflexivity | constructor; assumption].
      * exists post. simpl in Hs |- *. split; [congruence | assumption].
    + exists post. split; [simpl in *; f_equal; exact Hs | assumption].
Qed.

Lemma lstrip_head (s : pystr) :
  match lstrip s with
  | [] => True
  | c :: _ => isspace c = false
  end.
Proof.
  induction s as [|c s IH]; simpl; [exact I|].
  destruct (isspace c) eqn:Hc; [exact IH | exact Hc].
Qed.

Lemma lstrip_fixed (s : pystr) :
  match s with [] => True | c :: _ => isspace c = false end ->
  lstrip s = s.
Proof. destruct s as [|c s]; simpl; [auto | now intros ->]. Qed.

Lemma rstrip_head (s : pystr) :
  match s with [] => True | c :: _ => isspace c = false end ->
  match rstrip s with [] => s = [] | c :: _ => isspace c = false end.
Proof.
  destruct s as [|c s]; simpl; [auto|]. intros Hc.
  destruct (rstrip s); [now rewrite Hc | assumption].
Qed.

Lemma rstrip_idempotent (s : pystr) : rstrip (rstrip s) = rstrip s.
Proof.
  induction s as [|c s IH]; simpl; [reflexivity|].
  destruct (rstrip s) as [|k kept] eqn:Hr.
  - destruct (isspace c) eqn:Hc; simpl; [reflexivity | now rewrite Hc].
  - simpl in IH |- *. destruct (rstrip kept) as [|k' kept'] eqn:Hk.
    + destruct (isspace k) eqn:Hk0; [discriminate|].
      injection IH as <-. reflexivity.
    + now rewrite IH.
Qed.

Lemma rstrip_nil_iff (s : pystr) :
  rstrip s = [] <-> Forall (fun c => isspace c = true) s.
Proof.
  induction s as [|c s IH]; simpl; [split; auto|].
  destruct (rstrip s) as [|k kept].
  - destruct (isspace c) eqn:Hc; split; intros H; try discriminate.
    + constructor; [assumption | now apply IH].
    + reflexivity.
    + inversion H; congruence.
  - split; [discriminate|]. intros H. inversion H as [|? ? _ Hs]; subst.
    apply IH in Hs. discriminate.
Qed.

Lemma lstrip_nil_iff (s : pystr) :
  lstrip s = [] <-> Forall (fun c => isspace c = true) s.
Proof.
  induction s as [|c s IH]; simpl; [split; auto|].
  destruct (isspace c) eqn:Hc.
  - rewrite IH. split; intros H; [constructor; assumption|].
    now inversion H.
  - split; [discriminate|]. intros H. inversion H; congruence.
Qed.

Lemma strip_nil_iff (s : pystr) :
  strip s = [] <-> Forall (fun c => isspace c = true) s.
Proof.
  unfold strip. rewrite rstrip_nil_iff. split.
  - intros H. destruct (lstrip_suffix s) as (pre & Hs & Hpre).
    rewrite Hs. apply Forall_app. split; assumption.
  - intros H. destruct (lstrip_suffix s) as (pre & Hs & Hpre).
    rewrite Hs in H. now apply Forall_app in H.
Qed.

(** A stripped text starts with no whitespace and ends with none. *)
Lemma strip_fixed (s : pystr) :
  lstrip (strip s) = strip s /\ rstrip (strip s) = strip s.
Proof.
  unfold strip. split; [|apply rstrip_idempotent].
  apply lstrip_fixed.
  pose proof (rstrip_head (lstrip s) (lstrip_head s)) as H.
  destruct (rstrip (lstrip s)); [exact I | exact H].
Qed.

Lemma single_spaced_app (a b : pystr) :
  single_spaced (a ++ b) = true ->
  single_spaced a = true /\ single_spaced b = true.
Proof.
  induction a as [|c a IH]; simpl; [auto|].
  intros H. apply andb_prop in H as [H Hrest].
  apply andb_prop in H as [Hc Hadj].
  destruct (IH Hrest) as [Ha Hb]. split; [|assumption].
  rewrite Hc, Ha. simpl.
  destruct a as [|d a]; [reflexivity|]. simpl in Hadj. now rewrite Hadj.
Qed.

Lemma sub_spaces_in_run_head (s : pystr) :
  match sub_spaces true s with
  | [] => True
  | c :: _ => isspace c = false
  end.
Proof.
  induction s as [|c s IH]; simpl; [exact I|].
  destruct (isspace c) eqn:Hc; [exact IH | exact Hc].
Qed.

Lemma sub_spaces_single_spaced (s : pystr) : forall in_run,
  single_spaced (sub_spaces in_run s) = true.
Proof.
  induction s as [|c s IH]; intros in_run; simpl; [reflexivity|].
  destruct (isspace c) eqn:Hc.
  - destruct in_run; [apply IH|].
    simpl. rewrite IH.
    pose proof (sub_spaces_in_run_head s) as Hh.
    destruct (sub_spaces true s) as [|d rest]; [reflexivity|].
    now rewrite Hh.
  - simpl. rewrite Hc, IH. simpl.
    now destruct (sub_spaces false s).
Qed.

Lemma sub_spaces_fixed (s : pystr) : forall in_run,
  single_spaced s = true ->
  (in_run = true -> match s with [] => True | c :: _ => isspace c = false end) ->
  sub_spaces in_run s = s.
Proof.
  induction s as [|c s IH]; intros in_run Hs Hrun; simpl; [reflexivity|].
  simpl in Hs. apply andb_prop in Hs as [Hs Hrest].
  apply andb_prop in Hs as [Hc Hadj].
  destruct (isspace c) eqn:Hsp.
  - destruct in_run; [specialize (Hrun eq_refl); simpl in Hrun; congruence|].
    simpl in Hc. apply N.eqb_eq in Hc. subst c. f_equal.
    apply IH; [assumption|]. intros _.
    destruct s as [|d s]; [exact I|]. simpl in Hadj.
    now destruct (isspace d).
  - f_equal. apply IH; [assumption | discriminate].
Qed.

Lemma sub_spaces_length (s : pystr) : forall in_run,
  (length (sub_spaces in_run s) <= length s)%nat.
Proof.
  induction s as [|c s IH]; intros in_run; simpl; [lia|].
  destruct (isspace c); [destruct in_run|]; simpl;
    pose proof (IH true); pose proof (IH false); lia.
Qed.

Lemma sub_spaces_all_space (s : pystr) :
  Forall (fun c => isspace c = true) s <->
  Forall (fun c => isspace c = true) (sub_spaces false s).
Proof.
  assert (H : forall in_run,
             Forall (fun c => isspace c = true) s <->
             Forall (fun c => isspace c = true) (sub_spaces in_run s)).
  { induction s as [|c s IH]; intros in_run; simpl; [split; auto|].
    destruct (isspace c) eqn:Hc.
    - destruct in_run.
      + rewrite <- IH. split; intros H; [now inversion H | now constructor].
      + split; intros H.
        * constructor; [reflexivity|]. apply IH. now inversion H.
        * constructor; [assumption|]. inversion H; subst. now apply (IH true).
    - split; intros H; inversion H; congruence. }
  apply H.
Qed.

Lemma strip_length (s : pystr) : (length (strip s) <= length s)%nat.
Proof.
  unfold strip.
  destruct (lstrip_suffix s) as (pre & Hs & _).
  destruct (rstrip_prefix (lstrip s)) as (post & Hl & _).
  rewrite Hs at 2. rewrite Hl at 2. rewrite !length_app. lia.
Qed.

End Whitespace.

(** ** The blog cleaner *)

Section CleanText.
Import BlogCleaner.

Lemma slice_to_prefix (s : pystr) (n : Z) :
  exists rest, s = slice_to s n ++ rest.
Proof.
  unfold slice_to. destruct (0 <=? n).
  - exists (skipn (Z.to_nat n) s). now rewrite firstn_skipn.
  - exists (skipn (length s - Z.to_nat (- n)) s). now rewrite firstn_skipn.
Qed.

Lemma lstrip_prefix_fixed (s rest : pystr) :
  lstrip (s ++ rest) = s ++ rest -> lstrip s = s.
Proof.
  destruct s as [|c s]; simpl; [reflexivity|].
  destruct (isspace c) eqn:Hc; [|reflexivity].
  intros H. destruct (lstrip_suffix (s ++ rest)) as (pre & Hs & _).
  assert (Hlen : length (lstrip (s ++ rest)) = S (length (s ++ rest)))
    by now rewrite H.
  apply (f_equal (@length N)) in Hs. rewrite (length_app pre) in Hs. lia.
Qed.

(** X12. The cleaned text is never longer than the raw text, whatever
    the limit, and with a non-negative limit it is never longer than
    [max_chars]. *)
Theorem X12_clean_text_is_bounded (raw_text : pystr) (max_chars : Z) :
  (length (_clean_text raw_text max_chars) <= length raw_text)%nat
  /\ (0 <= max_chars ->
      Z.of_nat (length (_clean_text raw_text max_chars)) <= max_chars).
Proof.
  unfold _clean_text.
  pose proof (strip_length (sub_spaces false raw_text)) as Hstrip.
  pose proof (sub_spaces_length raw_text false) as Hsub.
  set (text := strip (sub_spaces false raw_text)) in *.
  destruct (Z.ltb_spec max_chars (Z.of_nat (length text))) as [Hcut|Hfit].
  - unfold slice_to. destruct (Z.leb_spec 0 max_chars) as [Hpos|Hneg];
      rewrite length_firstn; split; lia.
  - split; lia.
Qed.

Lemma clean_text_tidy (raw_text : pystr) (max_chars : Z) :
  single_spaced (_clean_text raw_text max_chars) = true
  /\ lstrip (_clean_text raw_text max_chars) = _clean_text raw_text max_chars
  /\ (rstrip (_clean_text raw_text max_chars) = _clean_text raw_text max_chars
      \/ max_chars
         < Z.of_nat (length (strip (sub_spaces false raw_text)))).
Proof.
  unfold _clean_text.
  pose proof (sub_spaces_single_spaced raw_text false) as Hsub.
  destruct (strip_fixed (sub_spaces false raw_text)) as [Hl Hr].
  assert (Htidy : single_spaced (strip (sub_spaces false raw_text)) = true).
  { unfold strip.
    destruct (lstrip_suffix (sub_spaces false raw_text)) as (pre & Hs & _).
    destruct (rstrip_prefix (lstrip (sub_spaces false raw_text)))
      as (post & Hp & _).
    rewrite Hs in Hsub. apply single_spaced_app in Hsub as [_ Hsub].
    rewrite Hp in Hsub. now apply single_spaced_app in Hsub as [Hsub _]. }
  set (text := strip (sub_spaces false raw_text)) in *.
  destruct (Z.ltb_spec max_chars (Z.of_nat (length text))) as [Hcut|Hfit].
  - destruct (slice_to_prefix text max_chars) as (rest & Hrest).
    split; [|split; [|right; assumption]].
    + rewrite Hrest in Htidy. now apply single_spaced_app in Htidy.
    + apply (lstrip_prefix_fixed _ rest). now rewrite <- Hrest.
  - auto.
Qed.

(** X13. The cleaned text is tidy: its only whitespace characters are
    single plain spaces, it never starts with whitespace, and it ends
    with whitespace only when it was cut at the limit. *)
Theorem X13_clean_text_is_tidy (raw_text : pystr) (max_chars : Z) :
  single_spaced (_clean_text raw_text max_chars) = true
  /\ lstrip (_clean_text raw_text max_chars) = _clean_text raw_text max_chars
  /\ (rstrip (_clean_text raw_text max_chars) = _clean_text raw_text max_chars
      \/ max_chars
         < Z.of_nat (length (strip (sub_spaces false raw_text)))).
Proof. apply clean_text_tidy. Qed.

Lemma clean_text_fixed (t : pystr) (max_chars : Z) :
  single_spaced t = true -> lstrip t = t -> rstrip t = t ->
  ((max_chars <? Z.of_nat (length t)) = true -> slice_to t max_chars = t) ->
  _clean_text t max_chars = t.
Proof.
  intros Hs Hl Hr Hcut. unfold _clean_text.
  rewrite (sub_spaces_fixed t false Hs) by discriminate.
  unfold strip. rewrite Hl, Hr.
  destruct (max_chars <? Z.of_nat (length t)) eqn:Hlt; auto.
Qed.

(** X14. Cleaning is idempotent on text that was not cut at the limit:
    cleaning its cleaned form again gives the same text. *)
Theorem X14_clean_text_is_idempotent_when_not_cut
    (raw_text : pystr) (max_chars : Z) :
  _clean_text raw_text max_chars = strip (sub_spaces false raw_text) ->
  _clean_text (_clean_text raw_text max_chars) max_chars
  = _clean_text raw_text max_chars.
Proof.
  intros Huncut.
  destruct (clean_text_tidy raw_text max_chars) as (Hs & Hl & _).
  destruct (strip_fixed (sub_spaces false raw_text)) as [_ Hr].
  apply clean_text_fixed; try assumption.
  - now rewrite Huncut.
  - intros Hlt. rewrite Huncut at 1 2. rewrite Huncut in Hlt.
    unfold _clean_text in Huncut. now rewrite Hlt in Huncut.
Qed.

End CleanText.

Section CleanTextEmpty.
Import BlogCleaner.

Lemma clean_text_nil_iff (raw_text : pystr) (max_chars : Z) :
  0 < max_chars ->
  (_clean_text raw_text max_chars = []
   <-> Forall (fun c => isspace c = true) raw_text).
Proof.
  intros Hmax. rewrite sub_spaces_all_space, <- strip_nil_iff.
  unfold _clean_text.
  set (text := strip (sub_spaces false raw_text)).
  destruct (Z.ltb_spec max_chars (Z.of_nat (length text))) as [Hcut|Hfit];
    [|reflexivity].
  unfold slice_to. destruct (Z.leb_spec 0 max_chars); [|lia].
  destruct text as [|c text]; [simpl in Hcut; lia|].
  destruct (Z.to_nat max_chars) eqn:Hn; [lia|].
  simpl. split; discriminate.
Qed.

(** X15. With a positive limit, the cleaned text is empty exactly when
    the raw text consists of whitespace only (or is empty). *)
Theorem X15_clean_text_empty_iff_blank (raw_text : pystr) (max_chars : Z) :
  0 < max_chars ->
  (_clean_text raw_text max_chars = []
   <-> Forall (fun c => isspace c = true) raw_text).
Proof. apply clean_text_nil_iff. Qed.

End CleanTextEmpty.

Section BlogCleanerRun.
Import BlogCleaner.
Context {TL : TextLib}.
Variable world : TextWorld.

Lemma blog_run_raw_text (self : BlogCleanerAgent)
    (inputs : gmap string pystr) (source : pystr) (h : list TextEvent) :
  inputs !! "blog_source" = Some source -> source <> [] ->
  _is_url source = false ->
  _run world self inputs h
  = (Done {[ "clean_blog_text" := _clean_text source (max_chars self) ]}, h).
Proof.
  intros Hin Hne Hurl. unfold _run, tretrying, _run_body.
  rewrite Hin. destruct source as [|c source]; [contradiction|].
  rewrite Hurl. reflexivity.
Qed.

(** X16. A source that is not a URL is cleaned as it is: the agent
    returns its cleaned text at the first attempt and nothing is
    downloaded.  (A source of whitespace only therefore comes back as an
    empty cleaned text rather than as an error.) *)
Theorem X16_raw_text_source_needs_no_network
    (self : BlogCleanerAgent) (inputs : gmap string pystr)
    (source : pystr) (h : list TextEvent) :
  inputs !! "blog_source" = Some source -> source <> [] ->
  _is_url source = false ->
  _run world self inputs h
  = (Done {[ "clean_blog_text" := _clean_text source (max_chars self) ]}, h).
Proof. apply blog_run_raw_text. Qed.

(** X17. For a URL source, the plain HTTP GET is the fallback only: when
    trafilatura downloads a page and extracts text from it, that text is
    cleaned and returned and the download is the only thing that
    happened; when the download or the extraction gives nothing, the GET
    follows, and its failure or an empty body fails the attempt. *)
Theorem X17_url_source_falls_back_to_plain_get
    (self : BlogCleanerAgent) (inputs : gmap string pystr)
    (source : pystr) (h : list TextEvent) :
  inputs !! "blog_source" = Some source -> source <> [] ->
  _is_url source = true ->
  let extracted :=
    match trafilatura_fetch_url world h source with
    | Some ((_ :: _) as page) =>
        match trafilatura_extract page with
        | Some ((_ :: _) as text) => Some text
        | _ => None
        end
    | _ => None
    end in
  match extracted with
  | Some text =>
      _run world self inputs h
      = (Done {[ "clean_blog_text" := _clean_text text (max_chars self) ]},
         h ++ [TvFetchUrl source])
  | None =>
      _run_body world self inputs h
      = (match requests_get_text world (h ++ [TvFetchUrl source]) source
                 (timeout self) with
         | None => Failed (RemoteError "requests")
         | Some [] => Failed NoContentExtracted
         | Some text =>
             Done {[ "clean_blog_text" := _clean_text text (max_chars self) ]}
         end,
         (h ++ [TvFetchUrl source]) ++ [TvHttpGet source (timeout self)])
  end.
Proof.
  intros Hin Hne Hurl. cbv zeta.
  unfold _run, tretrying, _run_body. rewrite Hin.
  destruct source as [|c0 source]; [contradiction|]. rewrite Hurl.
  unfold _download_url, tbind, tcall, tret, tfail.
  destruct (trafilatura_fetch_url world h (c0 :: source)) as [[|c page]|].
  - destruct (requests_get_text world _ _ _) as [[|t text]|]; reflexivity.
  - destruct (trafilatura_extract (c :: page)) as [[|e ex]|]; try reflexivity;
      destruct (requests_get_text world _ _ _) as [[|t text]|]; reflexivity.
  - destruct (requests_get_text world _ _ _) as [[|t text]|]; reflexivity.
Qed.

(** X18. Without a source, or with an empty one, the agent raises the
    source-required error after its three attempts, with the two pauses
    of one second between them and nothing downloaded. *)
Theorem X18_blog_source_is_required
    (self : BlogCleanerAgent) (inputs : gmap string pystr)
    (h : list TextEvent) :
  inputs !! "blog_source" = None \/ inputs !! "blog_source" = Some [] ->
  _run world self inputs h
  = (Failed BlogSourceRequired, (h ++ [TvSleep 1]) ++ [TvSleep 1]).
Proof.
  intros [Hin|Hin]; unfold _run, tretrying, _run_body; rewrite Hin;
    reflexivity.
Qed.

End BlogCleanerRun.

(** ** The Groq client and the script generator *)

Section ScriptGeneratorRun.
Import ScriptGenerator.
Context {TL : TextLib}.
Variable world : TextWorld.

Lemma run_groq_eq (client : Groq.GroqClient) (sys user : pystr)
    (h : list TextEvent) :
  Groq.run_groq world client sys user h
  = (match groq_create world h (Groq.request client sys user) with
     | Failed e => Failed e
     | Done [] => Failed NoChoices
     | Done (None :: _) | Done (Some [] :: _) => Failed NoContent
     | Done (Some content :: _) => Done (strip content)
     end,
     h ++ [TvGroq (Groq.request client sys user)]).
Proof.
  unfold Groq.run_groq, tbind, tcall, tret, tfail.
  destruct (groq_create world h (Groq.request client sys user))
    as [[|[[|c content]|] rest]|e]; reflexivity.
Qed.

(** X19. Whatever Groq answers, [run_groq] sends exactly one request, and
    a script it returns is the content of the first choice, stripped: it
    neither starts nor ends with whitespace (and is empty when that
    content was whitespace only).  No choices, or a first choice without
    content, is an error. *)
Theorem X19_run_groq_returns_stripped_first_choice
    (client : Groq.GroqClient) (sys user : pystr) (h : list TextEvent) :
  snd (Groq.run_groq world client sys user h)
  = h ++ [TvGroq (Groq.request client sys user)]
  /\ match fst (Groq.run_groq world client sys user h) with
     | Done script =>
         lstrip script = script /\ rstrip script = script
         /\ exists content rest,
              groq_create world h (Groq.request client sys user)
              = Done (Some content :: rest)
              /\ content <> [] /\ script = strip content
     | Failed e =>
         match groq_create world h (Groq.request client sys user) with
         | Failed e' => e = e'
         | Done [] => e = NoChoices
         | Done (first :: _) =>
             e = NoContent /\ (first = None \/ first = Some [])
         end
     end.
Proof.
  rewrite run_groq_eq. split; [reflexivity|]. simpl.
  destruct (groq_create world h (Groq.request client sys user))
    as [[|[[|c content]|] rest]|e]; simpl; auto.
  destruct (strip_fixed (c :: content)) as [Hl Hr].
  split; [exact Hl|]. split; [exact Hr|].
  exists (c :: content), rest. repeat split. discriminate.
Qed.

Lemma key_points_loop_spec (all : list pystr) (paragraphs : list pystr) :
  forall points,
    (forall p, p ∈ paragraphs -> p ∈ all) ->
    (length points < 4)%nat -> NoDup points ->
    Forall (fun point =>
              exists p, p ∈ all
                /\ strip (hd [] (split_on 46 p)) <> []
                /\ point = textwrap_shorten
                             (strip (hd [] (split_on 46 p))) 160) points ->
    let result := key_points_loop paragraphs points in
    (length result <= 4)%nat /\ NoDup result
    /\ Forall (fun point =>
                 exists p, p ∈ all
                   /\ strip (hd [] (split_on 46 p)) <> []
                   /\ point = textwrap_shorten
                                (strip (hd [] (split_on 46 p))) 160) result.
Proof.
  induction paragraphs as [|p rest IH]; intros points Hsub Hlen Hnd Hall;
    simpl.
  - repeat split; [lia | assumption | assumption].
  - assert (Hrest : forall q, q ∈ rest -> q ∈ all)
      by (intros q Hq; apply Hsub; now right).
    destruct (strip (hd [] (split_on 46 p))) as [|c sentence] eqn:Hsent.
    + apply IH; assumption.
    + set (s := textwrap_shorten (c :: sentence) 160).
      assert (Hs : exists p0, p0 ∈ all
                     /\ strip (hd [] (split_on 46 p0)) <> []
                     /\ s = textwrap_shorten
                              (strip (hd [] (split_on 46 p0))) 160).
      { exists p. split; [apply Hsub; now left|].
        rewrite Hsent. split; [discriminate | reflexivity]. }
      destruct (bool_decide (s ∈ points)) eqn:Hmem.
      * destruct (Nat.eqb_spec (length points) 4); [lia|].
        apply IH; assumption.
      * apply bool_decide_eq_false in Hmem.
        assert (Hnd' : NoDup (points ++ [s])).
        { apply NoDup_app. split; [assumption|]. split.
          - intros x Hx Hxs. apply list_elem_of_singleton in Hxs. now subst.
          - apply NoDup_singleton. }
        assert (Hall' : Forall (fun point =>
                   exists p0, p0 ∈ all
                     /\ strip (hd [] (split_on 46 p0)) <> []
                     /\ point = textwrap_shorten
                                  (strip (hd [] (split_on 46 p0))) 160)
                   (points ++ [s])).
        { apply Forall_app. split; [assumption|]. now constructor. }
        destruct (Nat.eqb_spec (length (points ++ [s])) 4) as [H4|H4].
        -- repeat split; [lia | assumption | assumption].
        -- apply IH; try assumption.
           rewrite length_app in *. simpl in *. lia.
Qed.

(** X20. [_extract_key_points] returns at most four points, all
    different, each the shortened first sentence (non-empty once stripped)
    of one of the first six paragraphs. *)
Theorem X20_key_points_are_few_and_distinct (paragraphs : list pystr) :
  (length (_extract_key_points paragraphs) <= 4)%nat
  /\ NoDup (_extract_key_points paragraphs)
  /\ Forall (fun point =>
               exists p, p ∈ firstn 6 paragraphs
                 /\ strip (hd [] (split_on 46 p)) <> []
                 /\ point = textwrap_shorten
                              (strip (hd [] (split_on 46 p))) 160)
            (_extract_key_points paragraphs).
Proof.
  unfold _extract_key_points.
  apply (key_points_loop_spec (firstn 6 paragraphs));
    [auto | simpl; lia | apply NoDup_nil; exact I | constructor].
Qed.

Lemma script_run_nonempty
    (client : Groq.GroqClient) (inputs : gmap string pystr)
    (blog_text : pystr) (h : list TextEvent) :
  inputs !! "clean_blog_text" = Some blog_text -> blog_text <> [] ->
  let req := Groq.request client SYSTEM_PROMPT (_build_prompt blog_text) in
  exists script,
    _run world client inputs h
    = (Done {[ "podcast_script" := script ]}, h ++ [TvGroq req])
    /\ (script = _build_fallback_script blog_text
        \/ (script <> [] /\ strip script = script
            /\ looks_like_html script = false
            /\ exists content rest,
                 groq_create world h req = Done (Some content :: rest)
                 /\ script = strip content)).
Proof.
  intros Hin Hne req. unfold _run, tretrying, _run_body. rewrite Hin.
  destruct blog_text as [|b0 blog_text]; [contradiction|].
  rewrite run_groq_eq. fold req.
  destruct (groq_create world h req) as [[|[[|c content]|] rest]|e];
    try (eexists; split; [reflexivity | left; reflexivity]).
  destruct (strip (c :: content)) as [|s script] eqn:Hstrip;
    [eexists; split; [reflexivity | left; reflexivity]|].
  destruct (looks_like_html (s :: script)) eqn:Hhtml;
    [eexists; split; [reflexivity | left; reflexivity]|].
  assert (Hfixed : strip (s :: script) = s :: script).
  { rewrite <- Hstrip. unfold strip at 1.
    destruct (strip_fixed (c :: content)) as [Hl Hr]. now rewrite Hl, Hr. }
  exists (s :: script). split; [now rewrite Hfixed|].
  right. repeat split; try assumption; [discriminate|].
  exists (c :: content), rest. split; [reflexivity | now rewrite Hstrip].
Qed.

(** X21. Given a non-empty cleaned text the script agent never fails and
    never retries: after its single request to Groq it returns a script,
    which is either Groq's, non-empty, stripped and not the start of an
    HTML page, or, whatever went wrong, the fallback script built from
    the text. *)
Theorem X21_script_agent_always_returns_a_script
    (client : Groq.GroqClient) (inputs : gmap string pystr)
    (blog_text : pystr) (h : list TextEvent) :
  inputs !! "clean_blog_text" = Some blog_text -> blog_text <> [] ->
  let req := Groq.request client SYSTEM_PROMPT (_build_prompt blog_text) in
  exists script,
    _run world client inputs h
    = (Done {[ "podcast_script" := script ]}, h ++ [TvGroq req])
    /\ (script = _build_fallback_script blog_text
        \/ (script <> [] /\ strip script = script
            /\ looks_like_html script = false
            /\ exists content rest,
                 groq_create world h req = Done (Some content :: rest)
                 /\ script = strip content)).
Proof. apply script_run_nonempty. Qed.

(** X22. Without a cleaned text, or with an empty one, the script agent
    raises its input error after three attempts, with the two pauses of
    two seconds between them and no request to Groq. *)
Theorem X22_clean_text_is_required
    (client : Groq.GroqClient) (inputs : gmap string pystr)
    (h : list TextEvent) :
  inputs !! "clean_blog_text" = None
  \/ inputs !! "clean_blog_text" = Some [] ->
  _run world client inputs h
  = (Failed CleanTextRequired, (h ++ [TvSleep 2]) ++ [TvSleep 2]).
Proof.
  intros [Hin|Hin]; unfold _run, tretrying, _run_body; rewrite Hin;
    reflexivity.
Qed.

End ScriptGeneratorRun.

(** ** The pipeline *)

Section PipelineProperties.
Context {L : AudioLib}.
Variable env : Env.

Lemma run_ok_inv (self : AudioGeneratorAgent) (inputs : gmap string string)
    (h : list Event) (r : gmap string string) (h' : list Event) :
  _run env self inputs h = (Ok r, h') ->
  r = {[ "final_audio_path" := output_path self ]}
  /\ exists script, inputs !! "podcast_script" = Some script /\ script <> "".
Proof.
  unfold _run, retrying.
  destruct (_run_body env self inputs h) as [[r1|e1] h1] eqn:H1.
  - intros [= <- <-]. apply run_body_ok_inv in H1.
    destruct H1 as (script & ? & ? & ? & ? & ? & ? & ? & ? & ? & ? & ?
                    & Hin & Hne & ? & ? & ? & ? & ? & ? & ? & ? & ? & ->).
    split; [reflexivity|]. now exists script.
  - destruct (_run_body env self inputs (h1 ++ [EvSleep 2]))
      as [[r2|e2] h2] eqn:H2; [|discriminate].
    intros [= <- <-]. apply run_body_ok_inv in H2.
    destruct H2 as (script & ? & ? & ? & ? & ? & ? & ? & ? & ? & ? & ?
                    & Hin & Hne & ? & ? & ? & ? & ? & ? & ? & ? & ? & ->).
    split; [reflexivity|]. now exists script.
Qed.

(** X23. When the pipeline, run with this audio agent and any blog and
    script agents, returns a result, then the source was not empty, both
    earlier agents succeeded in turn, the script handed to the audio agent
    was not empty, and the result maps [final_audio_path] to the agent's
    configured output path and every other key to what the script agent
    returned for it or, failing that, to what the blog agent returned. *)
Theorem X23_pipeline_result
    (blog_agent script_agent : Pipeline.runnable)
    (self : AudioGeneratorAgent) (blog_source : string)
    (h : list Event) (result : gmap string string) (h' : list Event) :
  Pipeline.run blog_agent script_agent (_run env self) blog_source h
  = (inr result, h') ->
  blog_source <> ""
  /\ result !! "final_audio_path" = Some (output_path self)
  /\ exists cleaned h1 script_result h2 script_text,
       blog_agent {[ "blog_source" := blog_source ]} h = (Ok cleaned, h1)
       /\ script_agent cleaned h1 = (Ok script_result, h2)
       /\ script_result !! "podcast_script" = Some script_text
       /\ script_text <> ""
       /\ _run env self script_result h2
          = (Ok {[ "final_audio_path" := output_path self ]}, h')
       /\ forall key, key <> "final_audio_path" ->
            result !! key
            = match script_result !! key with
              | Some v => Some v
              | None => cleaned !! key
              end.
Proof.
  unfold Pipeline.run.
  destruct (String.eqb_spec blog_source "") as [|Hsrc]; [discriminate|].
  destruct (blog_agent _ h) as [[cleaned|e] h1] eqn:Hblog; [|discriminate].
  destruct (script_agent cleaned h1) as [[script_result|e] h2] eqn:Hsr;
    [|discriminate].
  destruct (script_result !! "podcast_script") as [script_text|] eqn:Hscript;
    [|discriminate].
  destruct (_run env self script_result h2) as [[audio_result|e] h3]
    eqn:Haudio; [|discriminate].
  destruct (run_ok_inv _ _ _ _ _ Haudio) as (-> & script & Hin & Hne).
  rewrite lookup_singleton_eq. intros [= <- <-].
  split; [assumption|]. split.
  - apply lookup_union_Some_l, lookup_singleton_eq.
  - exists cleaned, h1, script_result, h2, script_text.
    repeat split; try assumption; try reflexivity.
    + congruence.
    + intros key Hkey. rewrite lookup_union_r
        by (apply lookup_singleton_ne; congruence).
      rewrite lookup_union.
      destruct (script_result !! key), (cleaned !! key); reflexivity.
Qed.

(** X24. The pipeline never has a missing or empty script synthesized.
    When the script agent's result has no [podcast_script], the pipeline
    stops with the key error and the audio agent is not run; when the
    script is empty, the audio agent refuses it, and the pipeline ends in
    its empty-input error after the agent's one pause. *)
Theorem X24_pipeline_stops_on_missing_or_empty_script
    (blog_agent script_agent : Pipeline.runnable)
    (self : AudioGeneratorAgent) (blog_source : string)
    (h : list Event) (cleaned : gmap string string) (h1 : list Event)
    (script_result : gmap string string) (h2 : list Event) :
  blog_source <> "" ->
  blog_agent {[ "blog_source" := blog_source ]} h = (Ok cleaned, h1) ->
  script_agent cleaned h1 = (Ok script_result, h2) ->
  script_result !! "podcast_script" = None
  \/ script_result !! "podcast_script" = Some "" ->
  Pipeline.run blog_agent script_agent (_run env self) blog_source h
  = match script_result !! "podcast_script" with
    | None => (inl (Pipeline.KeyError "podcast_script"), h2)
    | Some _ =>
        (inl (Pipeline.AgentRaised EmptyInputError), h2 ++ [EvSleep 2])
    end.
Proof.
  intros Hsrc Hblog Hscript Hin. unfold Pipeline.run.
  destruct (String.eqb_spec blog_source ""); [contradiction|].
  rewrite Hblog, Hscript.
  destruct Hin as [Hin|Hin]; rewrite Hin; [reflexivity|].
  unfold _run, retrying, _run_body. rewrite Hin. reflexivity.
Qed.

End PipelineProperties.

(** ** The two text agents in a row *)

Section TextStages.
Context {TL : TextLib}.
Variable world : TextWorld.

(** X25. A raw-text source through the first two agents: the blog
    cleaner always succeeds, with nothing downloaded; when the source is
    whitespace only, its cleaned text is empty and it is the script agent
    that fails, with its own input error after three attempts and no
    request to Groq; otherwise the script agent returns a script after its
    single request. *)
Theorem X25_blank_text_source_fails_in_the_script_agent
    (self : BlogCleaner.BlogCleanerAgent) (client : Groq.GroqClient)
    (source : pystr) (h : list TextEvent) :
  source <> [] -> BlogCleaner._is_url source = false ->
  0 < BlogCleaner.max_chars self ->
  exists cleaned,
    BlogCleaner._run world self {[ "blog_source" := source ]} h
    = (Done cleaned, h)
    /\ if forallb isspace source
       then ScriptGenerator._run world client cleaned h
            = (Failed CleanTextRequired, (h ++ [TvSleep 2]) ++ [TvSleep 2])
       else exists script,
            ScriptGenerator._run world client cleaned h
            = (Done {[ "podcast_script" := script ]},
               h ++ [TvGroq
                       (Groq.request client ScriptGenerator.SYSTEM_PROMPT
                          (ScriptGenerator._build_prompt
                             (BlogCleaner._clean_text source
                                (BlogCleaner.max_chars self))))]).
Proof.
  intros Hne Hurl Hmax. eexists. split.
  - apply blog_run_raw_text; [apply lookup_singleton_eq | assumption..].
  - pose proof (clean_text_nil_iff source _ Hmax) as Hnil.
    destruct (forallb isspace source) eqn:Hblank.
    + rewrite forallb_forall, <- List.Forall_forall in Hblank.
      apply Hnil in Hblank.
      unfold ScriptGenerator._run, tretrying, ScriptGenerator._run_body.
      rewrite lookup_singleton_eq, Hblank. reflexivity.
    + assert (Hc : BlogCleaner._clean_text source (BlogCleaner.max_chars self)
                   <> []).
      { intros Hc. apply Hnil in Hc.
        rewrite List.Forall_forall, <- forallb_forall in Hc. congruence. }
      destruct (script_run_nonempty world client
                  {[ "clean_blog_text"
                     := BlogCleaner._clean_text source
                          (BlogCleaner.max_chars self) ]}
                  _ h (lookup_singleton_eq _ _) Hc) as (script & Hrun & _).
      now exists script.
Qed.

End TextStages.

(** ** Examples for the properties above *)

Lemma X2_witness :
  @_synthesize Sample.lib (Sample.world (RespBytes Studio.raw_mp3) [])
    default_agent "hello" []
  = (@use_payload Sample.lib (Some Studio.raw_mp3),
     [] ++ [EvGenerate (tts_request default_agent "hello")]).
Proof.
  apply (@X2_raw_bytes_response_is_the_payload Sample.lib
           (Sample.world (RespBytes Studio.raw_mp3) []) default_agent
           "hello" [] Studio.raw_mp3).
  reflexivity.
Defined.

Lemma X3_witness :
  @_synthesize Sample.lib (Sample.world RespNone []) default_agent "hello" []
  = (Raise NoAudioPayloadError,
     [] ++ [EvGenerate (tts_request default_agent "hello")]).
Proof.
  apply (@X3_unrecognized_response_has_no_payload Sample.lib
           (Sample.world RespNone []) default_agent "hello" [] RespNone).
  - reflexivity.
  - repeat constructor.
  - discriminate.
Defined.

Lemma X4_witness :
  @_synthesize Sample.lib (Sample.world Sample.inline_and_url [])
    default_agent "hello" []
  = (Ok Studio.abc_clip, [EvGenerate (tts_request default_agent "hello")])
  /\ is_standard Studio.abc_clip.
Proof.
  assert (H : @_synthesize Sample.lib (Sample.world Sample.inline_and_url [])
                default_agent "hello" []
              = (Ok Studio.abc_clip,
                 [EvGenerate (tts_request default_agent "hello")]))
    by (vm_compute; reflexivity).
  split; [exact H|].
  apply (@X4_agent_clips_are_standardized Sample.lib
           (Sample.world Sample.inline_and_url []) default_agent []
           Studio.abc_clip [EvGenerate (tts_request default_agent "hello")]).
  left. exists "hello". exact H.
Defined.

Lemma X6_witness :
  @_load_music Sample.lib (Sample.world RespNone Studio.intro_only)
    default_agent (intro_path default_agent) 0 (-5) []
  = ((let! segment :=
        from_file_path (Sample.world RespNone Studio.intro_only)
          ([] ++ [EvPathExists (intro_path default_agent)])
          (intro_path default_agent) in
      @_standardize_segment Sample.lib segment),
     [] ++ [EvPathExists (intro_path default_agent);
            EvFromFile (intro_path default_agent)]).
Proof.
  apply (@X6_load_music_skips_non_positive_fades Sample.lib
           (Sample.world RespNone Studio.intro_only) default_agent
           (intro_path default_agent) 0 (-5) []).
  - reflexivity.
  - lia.
  - lia.
Defined.

Lemma X7_witness :
  exists e evs,
    @_run Sample.lib (Sample.world Sample.inline_and_url Studio.intro_only)
      default_agent Sample.hello_inputs []
    = (Raise e, [] ++ evs)
    /\ Forall (fun ev => ~ is_export ev) evs.
Proof.
  refine (proj2 (@X7_missing_outro_ends_the_run Sample.lib
                   (Sample.world Sample.inline_and_url Studio.intro_only)
                   default_agent Sample.hello_inputs "hello" _ _ _ [])).
  - reflexivity.
  - discriminate.
  - reflexivity.
Defined.

Lemma X9_witness :
  @_run_body Sample.lib (Sample.world Studio.silence Studio.assets)
    default_agent Sample.hello_inputs []
  = (Ok {[ "final_audio_path" := output_path default_agent ]},
     Studio.episode_log)
  /\ exists script speech h1 intro h2 outro h3 final,
       Sample.hello_inputs !! "podcast_script" = Some script
       /\ @_synthesize Sample.lib (Sample.world Studio.silence Studio.assets)
            default_agent script [] = (Ok speech, h1)
       /\ @_load_music Sample.lib (Sample.world Studio.silence Studio.assets)
            default_agent (intro_path default_agent) 2000 0 h1
          = (Ok intro, h2)
       /\ @_load_music Sample.lib (Sample.world Studio.silence Studio.assets)
            default_agent (outro_path default_agent) 0 1500 h2
          = (Ok outro, h3)
       /\ Studio.episode_log
          = h3 ++ [EvExport (output_path default_agent) final "mp3" "320k"
                            ["-ar"; "44100"]]
       /\ is_standard final
       /\ length (samples final)
          = (length (samples intro) + length (samples speech)
             + length (samples outro))%nat.
Proof.
  assert (H : @_run_body Sample.lib
                (Sample.world Studio.silence Studio.assets)
                default_agent Sample.hello_inputs []
              = (Ok {[ "final_audio_path" := output_path default_agent ]},
                 Studio.episode_log))
    by (vm_compute; reflexivity).
  split; [exact H|].
  exact (proj2 (@X9_successful_attempt Sample.lib
                  (Sample.world Studio.silence Studio.assets)
                  default_agent Sample.hello_inputs [] _ _ H)).
Defined.

Lemma X12_witness :
  (length (BlogCleaner._clean_text TextSample.post_text 12)
   <= length TextSample.post_text)%nat
  /\ Z.of_nat (length (BlogCleaner._clean_text TextSample.post_text 12)) <= 12.
Proof.
  split.
  - apply (proj1 (X12_clean_text_is_bounded TextSample.post_text 12)).
  - apply (proj2 (X12_clean_text_is_bounded TextSample.post_text 12)). lia.
Defined.

Lemma X14_witness :
  BlogCleaner._clean_text
    (BlogCleaner._clean_text TextSample.greeting 30000) 30000
  = BlogCleaner._clean_text TextSample.greeting 30000.
Proof.
  apply (X14_clean_text_is_idempotent_when_not_cut TextSample.greeting 30000).
  vm_compute. reflexivity.
Defined.

Lemma X15_witness :
  BlogCleaner._clean_text TextSample.blank 30000 = []
  <-> Forall (fun c => isspace c = true) TextSample.blank.
Proof.
  apply (X15_clean_text_empty_iff_blank TextSample.blank 30000). lia.
Defined.

Lemma X16_witness :
  @BlogCleaner._run TextSample.lib TextSample.offline
    BlogCleaner.default_agent {[ "blog_source" := TextSample.post_text ]} []
  = (Done {[ "clean_blog_text"
             := BlogCleaner._clean_text TextSample.post_text
                  (BlogCleaner.max_chars BlogCleaner.default_agent) ]}, []).
Proof.
  apply (@X16_raw_text_source_needs_no_network TextSample.lib
           TextSample.offline BlogCleaner.default_agent
           {[ "blog_source" := TextSample.post_text ]}
           TextSample.post_text []).
  - apply lookup_singleton_eq.
  - discriminate.
  - vm_compute. reflexivity.
Defined.

Lemma X17_witness :
  @BlogCleaner._run TextSample.lib
    (TextSample.world (Some TextSample.post_text) None (Done []))
    BlogCleaner.default_agent {[ "blog_source" := TextSample.post_url ]} []
  = (Done {[ "clean_blog_text"
             := BlogCleaner._clean_text TextSample.post_text
                  (BlogCleaner.max_chars BlogCleaner.default_agent) ]},
     [] ++ [TvFetchUrl TextSample.post_url]).
Proof.
  refine (@X17_url_source_falls_back_to_plain_get TextSample.lib
            (TextSample.world (Some TextSample.post_text) None (Done []))
            BlogCleaner.default_agent
            {[ "blog_source" := TextSample.post_url ]}
            TextSample.post_url [] _ _ _).
  - apply lookup_singleton_eq.
  - discriminate.
  - vm_compute. reflexivity.
Defined.

Lemma X18_witness :
  @BlogCleaner._run TextSample.lib TextSample.offline
    BlogCleaner.default_agent ∅ []
  = (Failed BlogSourceRequired, ([] ++ [TvSleep 1]) ++ [TvSleep 1]).
Proof.
  apply (@X18_blog_source_is_required TextSample.lib TextSample.offline
           BlogCleaner.default_agent ∅ []).
  left. apply lookup_empty.
Defined.

Lemma X21_witness :
  exists script,
    @ScriptGenerator._run TextSample.lib TextSample.offline
      (Groq.default_client TextSample.key)
      {[ "clean_blog_text" := TextSample.post_text ]} []
    = (Done {[ "podcast_script" := script ]},
       [] ++ [TvGroq (Groq.request (Groq.default_client TextSample.key)
                        ScriptGenerator.SYSTEM_PROMPT
                        (ScriptGenerator._build_prompt
                           TextSample.post_text))])
    /\ (script = @ScriptGenerator._build_fallback_script TextSample.lib
                   TextSample.post_text
        \/ (script <> [] /\ strip script = script
            /\ @ScriptGenerator.looks_like_html TextSample.lib script = false
            /\ exists content rest,
                 groq_create TextSample.offline []
                   (Groq.request (Groq.default_client TextSample.key)
                      ScriptGenerator.SYSTEM_PROMPT
                      (ScriptGenerator._build_prompt TextSample.post_text))
                 = Done (Some content :: rest)
                 /\ script = strip content)).
Proof.
  refine (@X21_script_agent_always_returns_a_script TextSample.lib
            TextSample.offline (Groq.default_client TextSample.key)
            {[ "clean_blog_text" := TextSample.post_text ]}
            TextSample.post_text [] _ _).
  - apply lookup_singleton_eq.
  - discriminate.
Defined.

Lemma X22_witness :
  @ScriptGenerator._run TextSample.lib TextSample.offline
    (Groq.default_client TextSample.key) {[ "clean_blog_text" := [] ]} []
  = (Failed CleanTextRequired, ([] ++ [TvSleep 2]) ++ [TvSleep 2]).
Proof.
  apply (@X22_clean_text_is_required TextSample.lib TextSample.offline
           (Groq.default_client TextSample.key)
           {[ "clean_blog_text" := [] ]} []).
  right. apply lookup_singleton_eq.
Defined.

Lemma X23_witness :
  Pipeline.run Studio.blog_agent Studio.script_agent
    (@_run Sample.lib (Sample.world Studio.silence Studio.assets)
       default_agent)
    "Ten tips." []
  = (inr Studio.episode, Studio.episode_log)
  /\ Studio.episode !! "final_audio_path" = Some (output_path default_agent).
Proof.
  assert (H : Pipeline.run Studio.blog_agent Studio.script_agent
                (@_run Sample.lib
                   (Sample.world Studio.silence Studio.assets) default_agent)
                "Ten tips." []
              = (inr Studio.episode, Studio.episode_log))
    by (vm_compute; reflexivity).
  split; [exact H|].
  exact (proj1 (proj2 (@X23_pipeline_result Sample.lib
                         (Sample.world Studio.silence Studio.assets)
                         Studio.blog_agent Studio.script_agent default_agent
                         "Ten tips." [] _ _ H))).
Defined.

Lemma X24_witness :
  Pipeline.run Studio.blog_agent Studio.silent_script_agent
    (@_run Sample.lib (Sample.world Studio.silence Studio.assets)
       default_agent)
    "Ten tips." []
  = (inl (Pipeline.KeyError "podcast_script"), []).
Proof.
  refine (@X24_pipeline_stops_on_missing_or_empty_script Sample.lib
            (Sample.world Studio.silence Studio.assets)
            Studio.blog_agent Studio.silent_script_agent default_agent
            "Ten tips." [] {[ "clean_blog_text" := "Ten tips." ]} [] ∅ []
            _ _ _ _).
  - discriminate.
  - reflexivity.
  - reflexivity.
  - left. apply lookup_empty.
Defined.

Lemma X25_witness :
  exists cleaned,
    @BlogCleaner._run TextSample.lib TextSample.offline
      BlogCleaner.default_agent {[ "blog_source" := TextSample.blank ]} []
    = (Done cleaned, [])
    /\ @ScriptGenerator._run TextSample.lib TextSample.offline
         (Groq.default_client TextSample.key) cleaned []
       = (Failed CleanTextRequired, ([] ++ [TvSleep 2]) ++ [TvSleep 2]).
Proof.
  refine (@X25_blank_text_source_fails_in_the_script_agent TextSample.lib
            TextSample.offline BlogCleaner.default_agent
            (Groq.default_client TextSample.key) TextSample.blank [] _ _ _).
  - discriminate.
  - vm_compute. reflexivity.
  - reflexivity.
Defined.
